(** * Arps decline-curve forecasts (arps.py): model and verified properties

    The module [arps.py] defines three numeric functions: [split], [Arps] and
    [cumArps].  They are embedded here as Rocq functions.

    Numbers.  Python [int] values (lengths, day and month counts, [years],
    the result of [m.ceil]) are [Z].  Python [float] values are idealised as
    the real numbers [R]: rounding and overflow are not modelled, so every
    statement below is about the arithmetic the source denotes, evaluated
    exactly.

    Exceptions.  Every operation that Python can refuse on real arguments
    ([/] by zero, [divmod] by zero, [m.log] of a non-positive number, [0 ** y]
    with [y < 0]) returns a [result]; the functions thread it with [bind], in
    the source's evaluation order.  Where an operand is a numpy scalar (the
    elements of [days] on line 35) numpy's arithmetic applies instead, which
    raises nothing and answers [inf] or [nan]. *)

From Stdlib Require Import Reals ZArith List Lia Lra Bool.
Import ListNotations.

Set Implicit Arguments.

(** ** Outcomes of a Python evaluation *)

Module Py.

Inductive exn : Type :=
| ZeroDivisionError
| ValueError.

(** [NotReal] stands for a value that has left the real line: Python 3
    answers [x ** y] with a [complex] when [x < 0] and [y] is not an integer,
    and numpy answers a division by zero or an undefined power with [inf] or
    [nan].  The model does not follow such a value any further. *)
Inductive result (A : Type) : Type :=
| Ok (a : A)
| Raise (e : exn)
| NotReal.

Arguments Ok {A} a.
Arguments Raise {A} e.
Arguments NotReal {A}.

Definition bind {A B : Type} (c : result A) (k : A -> result B) : result B :=
  match c with
  | Ok a => k a
  | Raise e => Raise e
  | NotReal => NotReal
  end.

Definition fails {A : Type} (c : result A) : Prop :=
  exists e, c = Raise e.

(** A list comprehension whose element expression may raise: elements are
    evaluated left to right and the first exception aborts the whole list. *)
Fixpoint mapM {A B : Type} (f : A -> result B) (l : list A) : result (list B) :=
  match l with
  | [] => Ok []
  | x :: l' =>
      bind (f x) (fun y => bind (mapM f l') (fun ys => Ok (y :: ys)))
  end.

End Py.

Import Py.

Declare Scope py_scope.
Delimit Scope py_scope with py.
Notation "x <- c ;; k" := (bind c (fun x => k))
  (at level 61, c at next level, right associativity) : py_scope.
Open Scope py_scope.

(** ** Integer builtins *)

(** [divmod(x, n)] on [int]: floor division, the remainder takes the sign of
    the divisor (as [Z.div] and [Z.modulo] do); [n = 0] raises. *)
Definition py_divmod (x n : Z) : result (Z * Z) :=
  if (n =? 0)%Z then Raise ZeroDivisionError
  else Ok ((x / n)%Z, (x mod n)%Z).

(** [range(n)]: [0, 1, ..., n-1], empty when [n <= 0]. *)
Definition py_range (n : Z) : list Z :=
  map Z.of_nat (seq 0 (Z.to_nat n)).

(** [np.arange(lo, hi)] on integers: [lo, lo+1, ..., hi-1]. *)
Definition np_arange (lo hi : Z) : list Z :=
  map (fun i => (lo + Z.of_nat i)%Z) (seq 0 (Z.to_nat (hi - lo))).

(** One bound of a slice [a[lo:hi]]: a negative index counts from the end,
    and the result is clamped to [0 .. len]. *)
Definition slice_index (len i : Z) : Z :=
  let j := if (i <? 0)%Z then (i + len)%Z else i in
  Z.max 0 (Z.min len j).

(** [a[lo:hi]] (step 1). *)
Definition py_slice {A : Type} (a : list A) (lo hi : Z) : list A :=
  let len := Z.of_nat (length a) in
  let l := slice_index len lo in
  let h := slice_index len hi in
  firstn (Z.to_nat (h - l)) (skipn (Z.to_nat l) a).

(** ** [split] (arps.py, lines 6-9) *)

Definition split {A : Type} (a : list A) (n : Z) : result (list (list A)) :=
  km <- py_divmod (Z.of_nat (length a)) n ;;
  let '(k, m) := km in
  Ok (map (fun i => py_slice a (i * k + Z.min i m) ((i + 1) * k + Z.min (i + 1) m))
          (py_range n)).

(** The cut points of [split]: group [i] is [a[cut k m i : cut k m (i+1)]]. *)
Definition cut (k m i : Z) : Z := (i * k + Z.min i m)%Z.

(** ** Float builtins, over the reals *)

Open Scope R_scope.

(** [x / y] with a divisor that is not a literal. *)
Definition py_div (x y : R) : result R :=
  if Req_dec_T y 0 then Raise ZeroDivisionError else Ok (x / y).

(** [m.log(x)]: a "math domain error" ([ValueError]) unless [0 < x]. *)
Definition m_log (x : R) : result R :=
  if Rlt_dec 0 x then Ok (ln x) else Raise ValueError.

(** [m.ceil(x)], an [int]. *)
Definition m_ceil (x : R) : Z := (- Int_part (- x))%Z.

(** [m.exp(x)]. *)
Definition m_exp (x : R) : R := exp x.

(** Whether a float holds an integral value. *)
Definition is_integral (y : R) : bool :=
  if Req_dec_T (IZR (Int_part y)) y then true else false.

(** [x ** y].  A positive base gives [exp (y * ln x)]; [x ** 0] is [1] for
    every [x]; [0 ** y] is [0] for [y > 0] and raises for [y < 0]; a negative
    base is raised to an integral exponent by repeated multiplication and
    to any other exponent yields a [complex]. *)
Definition py_pow (x y : R) : result R :=
  if Rlt_dec 0 x then Ok (Rpower x y)
  else if Req_dec_T y 0 then Ok 1
  else if Req_dec_T x 0 then
         if Rlt_dec y 0 then Raise ZeroDivisionError else Ok 0
  else if is_integral y then Ok (powerRZ x (Int_part y))
  else NotReal.

(** [x / y] where an operand is a numpy [float64]: no exception, [inf] or
    [nan] for a zero divisor. *)
Definition np_div (x y : R) : result R :=
  if Req_dec_T y 0 then NotReal else Ok (x / y).

(** [x ** y] where the base is a numpy [float64]: as [py_pow] on the reals,
    with [inf] for [0 ** y], [y < 0], and [nan] for a negative base with a
    non-integral exponent. *)
Definition np_pow (x y : R) : result R :=
  if Rlt_dec 0 x then Ok (Rpower x y)
  else if Req_dec_T y 0 then Ok 1
  else if Req_dec_T x 0 then
         if Rlt_dec y 0 then NotReal else Ok 0
  else if is_integral y then Ok (powerRZ x (Int_part y))
  else NotReal.

(** [sum(l)]: left fold from the integer [0]. *)
Definition py_sum (l : list R) : R := fold_left Rplus l 0.

(** ** The transition point *)

Record transition : Type := Transition {
  D_nom : R;      (* nominal initial decline, 1/year *)
  dlim_nom : R;   (* nominal limiting decline, 1/year *)
  qlim : R;       (* rate at the switch to exponential decline *)
  tlim : Z        (* day of the switch *)
}.

(** [Arps], lines 30-33. *)
Definition Arps_transition (Qi D B dlim : R) : result transition :=
  p <- py_pow (1 - D) (-1 * B) ;;
  D_nom <- py_div (p - 1) B ;;
  l <- m_log (1 - dlim) ;;
  let dlim_nom := l / -1 in
  r <- py_div dlim_nom D_nom ;;
  e <- py_div 1 B ;;
  p' <- py_pow r e ;;
  let qlim := Qi * p' in
  r' <- py_div Qi qlim ;;
  p'' <- py_pow r' B ;;
  y <- py_div (p'' - 1) (B * D_nom) ;;
  let tlim := (m_ceil y * 365)%Z in
  Ok (Transition D_nom dlim_nom qlim tlim).

(** [cumArps], lines 54-57: the same computation written a second time
    (line 55 multiplies by [-1] where line 31 divides by it). *)
Definition cumArps_transition (Qi D B dlim : R) : result transition :=
  p <- py_pow (1 - D) (-1 * B) ;;
  D_nom <- py_div (p - 1) B ;;
  l <- m_log (1 - dlim) ;;
  let dlim_nom := -1 * l in
  r <- py_div dlim_nom D_nom ;;
  e <- py_div 1 B ;;
  p' <- py_pow r e ;;
  let qlim := Qi * p' in
  r' <- py_div Qi qlim ;;
  p'' <- py_pow r' B ;;
  y <- py_div (p'' - 1) (B * D_nom) ;;
  let tlim := (m_ceil y * 365)%Z in
  Ok (Transition D_nom dlim_nom qlim tlim).

(** ** [Arps] (arps.py, lines 11-39) *)

(** Line 35, the branch taken while [day < tlim]:
    [Qi / ((1 + B * D_nom * day / 365) ** (1 / B))].  [day] is a numpy
    integer, so the base of the power and the divisor are numpy floats;
    [1 / B] is a division of Python floats. *)
Definition q_hyperbolic (Qi B D_nom : R) (day : Z) : result R :=
  let base := 1 + B * D_nom * IZR day / 365 in
  e <- py_div 1 B ;;
  p <- np_pow base e ;;
  np_div Qi p.

(** Line 35, the other branch:
    [qlim * m.exp(- 1 * dlim_nom * (day - tlim) / 365)]. *)
Definition q_exponential (qlim dlim_nom : R) (tlim day : Z) : R :=
  qlim * m_exp (-1 * dlim_nom * IZR (day - tlim) / 365).

Definition Arps (Qi D B dlim : R) (years : Z) : result (list R * list R) :=
  let days := np_arange 0 (years * 365 + 1) in
  tr <- Arps_transition Qi D B dlim ;;
  q_daily <- mapM (fun day =>
                     if (day <? tlim tr)%Z
                     then q_hyperbolic Qi B (D_nom tr) day
                     else Ok (q_exponential (qlim tr) (dlim_nom tr) (tlim tr) day))
                  days ;;
  group_by_month <- split q_daily (years * 12) ;;
  let q_monthly := map py_sum group_by_month in
  Ok (q_daily, q_monthly).

(** ** [cumArps] (arps.py, lines 42-65) *)

(** The closed form used on lines 58 and 61,
    [(Qi / ((1 - B) * D_nom)) * 365 * (1 - base ** (1 - (1 / B)))],
    with [base = 1 + B * D_nom * tlim / 365] on line 58 and
    [base = 1 + B * D_nom * month / 12] on line 61. *)
Definition cum_hyperbolic (Qi B D_nom base : R) : result R :=
  c <- py_div Qi ((1 - B) * D_nom) ;;
  e <- py_div 1 B ;;
  p <- py_pow base (1 - e) ;;
  Ok (c * 365 * (1 - p)).

Definition cumArps (Qi D B dlim : R) (month : Z) : result R :=
  tr <- cumArps_transition Qi D B dlim ;;
  q_switch <- cum_hyperbolic Qi B (D_nom tr) (1 + B * D_nom tr * IZR (tlim tr) / 365) ;;
  if Rlt_dec (IZR (month * 365) / 12) (IZR (tlim tr)) then
    cum_hyperbolic Qi B (D_nom tr) (1 + B * D_nom tr * IZR month / 12)
  else
    c <- py_div (qlim tr) (dlim_nom tr) ;;
    Ok (c * 365
          * (1 - m_exp (- dlim_nom tr * (IZR (month * 365) / 12 - IZR (tlim tr)) / 365))
        + q_switch).

(** ** Valid decline parameters (spec section 3) *)

Definition valid (Qi D B dlim : R) : Prop :=
  0 < Qi /\ 0 < D < 1 /\ 0 < B /\ 0 < dlim < 1.

(** The quantities of the claims, written with real-number operators. *)
Section Closed_forms.
Variables Qi D B dlim : R.

Definition Dnom : R := (Rpower (1 - D) (- B) - 1) / B.
Definition Dlimnom : R := - ln (1 - dlim).
Definition Qlim : R := Qi * Rpower (Dlimnom / Dnom) (1 / B).
(** The year count whose ceiling gives the transition. *)
Definition Tyears : R := (Rpower (Qi / Qlim) B - 1) / (B * Dnom).
Definition Tlim : Z := (m_ceil Tyears * 365)%Z.

(** The rate on day [t] (spec section 4.1, step 4). *)
Definition Rate (t : Z) : R :=
  if (t <? Tlim)%Z
  then Qi / Rpower (1 + B * Dnom * IZR t / 365) (1 / B)
  else Qlim * exp (- Dlimnom * (IZR t - IZR Tlim) / 365).

(** The hyperbolic cumulative volume as a function of the base
    [1 + B * D_nom * t] of its power (spec section 4.2). *)
Definition Cum_hyperbolic (base : R) : R :=
  Qi / ((1 - B) * Dnom) * 365 * (1 - Rpower base (1 - 1 / B)).

(** The cumulative volume after [month] months (spec section 4.2). *)
Definition Cum (month : Z) : R :=
  if Rlt_dec (IZR (month * 365) / 12) (IZR Tlim)
  then Cum_hyperbolic (1 + B * Dnom * IZR month / 12)
  else Qlim / Dlimnom * 365
         * (1 - exp (- Dlimnom * (IZR (month * 365) / 12 - IZR Tlim) / 365))
       + Cum_hyperbolic (1 + B * Dnom * IZR Tlim / 365).

End Closed_forms.

(** ** [visualize] (arps.py, lines 67-94) *)

(** [np.cumsum(l)]: the running sums, the first being [l[0]] itself. *)
Fixpoint cumsum_from (acc : R) (l : list R) : list R :=
  match l with
  | [] => []
  | x :: l' => (acc + x) :: cumsum_from (acc + x) l'
  end.

Definition np_cumsum (l : list R) : list R :=
  match l with
  | [] => []
  | x :: l' => x :: cumsum_from x l'
  end.

(** The data [visualize] hands to the two [plot] calls: the shared x values
    (line 71), the rate curve (line 77) and the cumulative curve (lines 72
    and 83).  The drawing itself is outside the model. *)
Record chart : Type := Chart {
  months : list Z;
  rate_curve : list R;
  cumulative_curve : list R
}.

Definition visualize_data (q_monthly : list R) : chart :=
  let months := py_range (Z.of_nat (length q_monthly)) in
  let monthly_cum := np_cumsum q_monthly in
  Chart months q_monthly monthly_cum.

(** * Properties *)

(** ** Bucketing *)

Section Split_facts.
Context {A : Type}.
Implicit Types a : list A.

Lemma firstn_then_firstn a (p q : nat) :
  firstn p a ++ firstn q (skipn p a) = firstn (p + q) a.
Proof.
  revert a; induction p as [|p IH]; intros [|x a]; simpl; trivial.
  - now destruct q.
  - now rewrite IH.
Qed.

Lemma slice_index_in_range (len i : Z) :
  (0 <= i <= len)%Z -> slice_index len i = i.
Proof.
  intros H; unfold slice_index.
  destruct (Z.ltb_spec i 0); lia.
Qed.

Lemma py_slice_in_range a (lo hi : Z) :
  (0 <= lo <= hi)%Z -> (hi <= Z.of_nat (length a))%Z ->
  py_slice a lo hi = firstn (Z.to_nat (hi - lo)) (skipn (Z.to_nat lo) a).
Proof.
  intros H1 H2; unfold py_slice.
  now rewrite !slice_index_in_range by lia.
Qed.

Lemma length_py_slice a (lo hi : Z) :
  (0 <= lo <= hi)%Z -> (hi <= Z.of_nat (length a))%Z ->
  Z.of_nat (length (py_slice a lo hi)) = (hi - lo)%Z.
Proof.
  intros H1 H2; rewrite py_slice_in_range by assumption.
  rewrite length_firstn, length_skipn; lia.
Qed.

Lemma cut_step (k m i : Z) :
  (0 <= i)%Z -> (0 <= m)%Z ->
  (cut k m (i + 1) - cut k m i = if (i <? m)%Z then k + 1 else k)%Z.
Proof.
  intros Hi Hm; unfold cut.
  destruct (Z.ltb_spec i m); lia.
Qed.

Lemma cut_bounds (L n i : Z) :
  (0 <= L)%Z -> (0 < n)%Z -> (0 <= i <= n)%Z ->
  (0 <= cut (L / n) (L mod n) i <= L)%Z.
Proof.
  intros HL Hn Hi; unfold cut.
  pose proof (Z.mod_pos_bound L n Hn) as Hm.
  pose proof (Z.div_pos L n HL Hn) as Hk.
  pose proof (Z.div_mod L n ltac:(lia)) as E.
  assert (i * (L / n) <= n * (L / n))%Z by nia.
  split; [nia|].
  destruct (Z.min_spec i (L mod n)) as [[? ->]|[? ->]]; [|lia].
  assert (i < n)%Z by lia.
  assert ((i + 1) * (L / n) <= n * (L / n))%Z by nia.
  assert (i <= L mod n)%Z by lia.
  destruct (Z.eq_dec (L / n) 0) as [Z0|NZ]; [rewrite Z0 in *; lia|].
  nia.
Qed.

Lemma cut_last (L n : Z) :
  (0 < n)%Z -> cut (L / n) (L mod n) n = L.
Proof.
  intros Hn; unfold cut.
  pose proof (Z.mod_pos_bound L n Hn).
  pose proof (Z.div_mod L n ltac:(lia)).
  rewrite Z.min_r by lia. lia.
Qed.

Lemma concat_groups a (n : Z) (j : nat) :
  (0 < n)%Z -> (Z.of_nat j <= n)%Z ->
  let L := Z.of_nat (length a) in
  let k := (L / n)%Z in
  let m := (L mod n)%Z in
  concat (map (fun i => py_slice a (i * k + Z.min i m) ((i + 1) * k + Z.min (i + 1) m))
              (map Z.of_nat (seq 0 j)))
  = firstn (Z.to_nat (cut k m (Z.of_nat j))) a.
Proof.
  intros Hn Hj L k m.
  induction j as [|j IH].
  - simpl. unfold cut. rewrite Z.mul_0_l.
    pose proof (Z.mod_pos_bound L n Hn).
    now replace (Z.to_nat (0 + Z.min 0 m)) with 0%nat by (subst m; lia).
  - rewrite seq_S, !map_app, concat_app, IH by lia.
    cbn [map concat Nat.add]. rewrite app_nil_r.
    pose proof (Z.mod_pos_bound L n Hn) as Hm.
    pose proof (@cut_bounds L n (Z.of_nat j) ltac:(subst L; lia) Hn ltac:(lia)) as B1.
    pose proof (@cut_bounds L n (Z.of_nat j + 1) ltac:(subst L; lia) Hn ltac:(lia)) as B2.
    pose proof (@cut_step k m (Z.of_nat j) ltac:(lia) ltac:(subst m; lia)) as St.
    pose proof (Z.div_pos L n ltac:(subst L; lia) Hn) as Hk.
    fold k m in B1, B2.
    assert (cut k m (Z.of_nat j) <= cut k m (Z.of_nat j + 1))%Z
      by (destruct (Z.of_nat j <? m)%Z; subst k; lia).
    change (Z.of_nat j * k + Z.min (Z.of_nat j) m)%Z with (cut k m (Z.of_nat j)).
    change ((Z.of_nat j + 1) * k + Z.min (Z.of_nat j + 1) m)%Z
      with (cut k m (Z.of_nat j + 1)).
    rewrite py_slice_in_range by (subst L; lia).
    rewrite firstn_then_firstn.
    f_equal. rewrite Nat2Z.inj_succ. unfold Z.succ. lia.
Qed.

End Split_facts.

(** What [split] returns for a positive group count. *)
Lemma split_spec (A : Type) (a : list A) (n : Z) :
  (0 < n)%Z ->
  let L := Z.of_nat (length a) in
  exists groups,
    split a n = Ok groups
    /\ Z.of_nat (length groups) = n
    /\ concat groups = a
    /\ forall i, (0 <= i < n)%Z ->
         Z.of_nat (length (nth (Z.to_nat i) groups [])) =
         if (i <? L mod n)%Z then (L / n + 1)%Z else (L / n)%Z.
Proof.
  intros Hn L.
  unfold split, py_divmod.
  destruct (Z.eqb_spec n 0) as [->|_]; [lia|].
  cbn [bind]. eexists; split; [reflexivity|].
  fold L.
  pose proof (Z.mod_pos_bound L n Hn) as Hm.
  split; [|split].
  - unfold py_range. rewrite !length_map, length_seq. lia.
  - unfold py_range, L.
    rewrite (@concat_groups A a n (Z.to_nat n) Hn) by lia.
    rewrite Z2Nat.id by lia.
    rewrite cut_last by assumption.
    rewrite Nat2Z.id. apply firstn_all.
  - intros i Hi.
    set (f := fun i : Z => py_slice a _ _).
    assert (E : nth (Z.to_nat i) (map f (py_range n)) [] = f i).
    { unfold py_range.
      rewrite nth_indep with (d' := f 0%Z)
        by (rewrite !length_map, length_seq; lia).
      rewrite map_nth, (map_nth Z.of_nat _ 0%nat), seq_nth by lia.
      f_equal. lia. }
    rewrite E. unfold f.
    pose proof (@cut_bounds L n i ltac:(unfold L; lia) Hn ltac:(lia)) as B1.
    pose proof (@cut_bounds L n (i + 1) ltac:(unfold L; lia) Hn ltac:(lia)) as B2.
    pose proof (@cut_step (L / n) (L mod n) i ltac:(lia) ltac:(lia)) as St.
    pose proof (Z.div_pos L n ltac:(unfold L; lia) Hn) as Hk.
    unfold cut in B1, B2, St.
    rewrite length_py_slice; [exact St| |fold L; lia].
    destruct (i <? L mod n)%Z; lia.
Qed.

(** C3.  For a sequence [a] of length [L] and [n > 0], [split a n] returns
    exactly [n] groups whose concatenation, in order, is [a]; with
    [k = L div n] and [r = L mod n], group [i] has [k + 1] elements when
    [i < r] and [k] elements otherwise. *)
Theorem split_partitions (A : Type) (a : list A) (n : Z) :
  (0 < n)%Z ->
  let L := Z.of_nat (length a) in
  let k := (L / n)%Z in
  let r := (L mod n)%Z in
  exists groups,
    split a n = Ok groups
    /\ Z.of_nat (length groups) = n
    /\ concat groups = a
    /\ forall i, (0 <= i < n)%Z ->
         Z.of_nat (length (nth (Z.to_nat i) groups [])) =
         if (i <? r)%Z then (k + 1)%Z else k.
Proof.
  intros Hn L k r. exact (split_spec a Hn).
Qed.

Lemma split_partitions_witness :
  exists groups,
    split [1; 2; 3; 4; 5; 6; 7] 3 = Ok groups
    /\ Z.of_nat (length groups) = 3%Z
    /\ concat groups = [1; 2; 3; 4; 5; 6; 7]
    /\ forall i, (0 <= i < 3)%Z ->
         Z.of_nat (length (nth (Z.to_nat i) groups [])) =
         if (i <? 7 mod 3)%Z then (7 / 3 + 1)%Z else (7 / 3)%Z.
Proof.
  apply (@split_partitions R [1; 2; 3; 4; 5; 6; 7] 3). lia.
Defined.

(** [split] on concrete lists, as Python evaluates it. *)
Example split_7_3 :
  split [1; 2; 3; 4; 5; 6; 7]%Z 3 = Ok [[1; 2; 3]; [4; 5]; [6; 7]]%Z.
Proof. reflexivity. Qed.

Lemma split_zero (A : Type) (a : list A) :
  split a 0 = Raise ZeroDivisionError.
Proof. reflexivity. Qed.

Lemma split_negative (A : Type) (a : list A) (n : Z) :
  (n < 0)%Z -> split a n = Ok [].
Proof.
  intros Hn. unfold split, py_divmod, py_range.
  destruct (Z.eqb_spec n 0); [lia|].
  cbn [bind]. now replace (Z.to_nat n) with 0%nat by lia.
Qed.

(** C8, as the claim states it, fails: a negative group count does not make
    [split] fail. *)
Lemma split_nonpositive_counterexample :
  (-1 <= 0)%Z
  /\ split [1; 2; 3]%Z (-1) = Ok []
  /\ ~ fails (split [1; 2; 3]%Z (-1)).
Proof.
  split; [lia|]. split; [reflexivity|].
  intros [e He]. discriminate He.
Qed.

(** C8, amended.  [split a 0] fails (the [divmod] by zero raises
    [ZeroDivisionError]) and returns nothing; for [n < 0] the call does not
    fail and returns the empty list of groups. *)
Theorem split_nonpositive (A : Type) (a : list A) (n : Z) :
  (n <= 0)%Z ->
  split a n = if (n =? 0)%Z then Raise ZeroDivisionError else Ok [].
Proof.
  intros Hn. destruct (Z.eqb_spec n 0) as [->|Hz].
  - apply split_zero.
  - apply split_negative. lia.
Qed.

Lemma split_nonpositive_witness :
  split [1; 2; 3]%Z 0 = Raise ZeroDivisionError
  /\ split [1; 2; 3]%Z (-2) = Ok [].
Proof.
  split.
  - apply (@split_nonpositive Z [1; 2; 3]%Z 0). lia.
  - apply (@split_nonpositive Z [1; 2; 3]%Z (-2)). lia.
Defined.

(** ** Float builtins on their domains *)

Lemma py_div_nonzero (x y : R) : y <> 0 -> py_div x y = Ok (x / y).
Proof. intros H; unfold py_div; now destruct (Req_dec_T y 0). Qed.

Lemma py_div_zero (x : R) : py_div x 0 = Raise ZeroDivisionError.
Proof. unfold py_div; now destruct (Req_dec_T 0 0). Qed.

Lemma py_pow_positive (x y : R) : 0 < x -> py_pow x y = Ok (Rpower x y).
Proof. intros H; unfold py_pow; now destruct (Rlt_dec 0 x). Qed.

Lemma np_div_nonzero (x y : R) : y <> 0 -> np_div x y = Ok (x / y).
Proof. intros H; unfold np_div; now destruct (Req_dec_T y 0). Qed.

Lemma np_pow_positive (x y : R) : 0 < x -> np_pow x y = Ok (Rpower x y).
Proof. intros H; unfold np_pow; now destruct (Rlt_dec 0 x). Qed.

Lemma m_log_positive (x : R) : 0 < x -> m_log x = Ok (ln x).
Proof. intros H; unfold m_log; now destruct (Rlt_dec 0 x). Qed.

Lemma m_log_nonpositive (x : R) : x <= 0 -> m_log x = Raise ValueError.
Proof. intros H; unfold m_log; destruct (Rlt_dec 0 x); [lra | reflexivity]. Qed.

Lemma m_ceil_spec (x : R) : IZR (m_ceil x) - 1 < x <= IZR (m_ceil x).
Proof.
  unfold m_ceil; rewrite opp_IZR.
  destruct (base_Int_part (- x)); lra.
Qed.

Lemma m_ceil_positive (x : R) : 0 < x -> (0 < m_ceil x)%Z.
Proof.
  intros H; apply lt_IZR. destruct (m_ceil_spec x); simpl; lra.
Qed.

Lemma Rpower_one_base (y : R) : Rpower 1 y = 1.
Proof. unfold Rpower; rewrite ln_1, Rmult_0_r; apply exp_0. Qed.

Lemma Rpower_positive (x y : R) : 0 < Rpower x y.
Proof. apply exp_pos. Qed.

(** [x ** y] is strictly increasing in a positive base for [y > 0]. *)
Lemma Rpower_base_inj (a b c : R) :
  0 < c -> 0 < a -> 0 < b -> Rpower a c = Rpower b c -> a = b.
Proof.
  intros Hc Ha Hb E.
  destruct (Rtotal_order a b) as [L|[->|G]]; trivial; exfalso.
  - pose proof (Rlt_Rpower_l a b c Hc (conj Ha L)); lra.
  - pose proof (Rlt_Rpower_l b a c Hc (conj Hb G)); lra.
Qed.

(** For a negative exponent the power decreases with the base. *)
Lemma Rpower_neg_exponent_antitone (a b c : R) :
  c <= 0 -> 0 < a <= b -> Rpower b c <= Rpower a c.
Proof.
  intros Hc Hab.
  assert (E : forall x, Rpower x c = / Rpower x (- c))
    by (intros x; rewrite <- Rpower_Ropp; f_equal; ring).
  rewrite (E a), (E b).
  apply Rinv_le_contravar; [apply Rpower_positive|].
  apply Rle_Rpower_l; lra.
Qed.

Lemma mapM_pure {A B : Type} (f : A -> result B) (g : A -> B) (l : list A) :
  (forall x, In x l -> f x = Ok (g x)) -> mapM f l = Ok (map g l).
Proof.
  induction l as [|x l IH]; intros H; simpl; trivial.
  rewrite (H x (or_introl eq_refl)); cbn [bind].
  rewrite IH by (intros y Hy; apply H; now right).
  reflexivity.
Qed.

Lemma In_np_arange (lo hi x : Z) :
  In x (np_arange lo hi) <-> (lo <= x < hi)%Z.
Proof.
  unfold np_arange; rewrite in_map_iff; split.
  - intros (i & <- & Hi). apply in_seq in Hi. lia.
  - intros H. exists (Z.to_nat (x - lo)). split; [lia|].
    apply in_seq. lia.
Qed.

Lemma length_np_arange (lo hi : Z) :
  length (np_arange lo hi) = Z.to_nat (hi - lo).
Proof. unfold np_arange; now rewrite length_map, length_seq. Qed.

Lemma nth_np_arange (lo hi : Z) (i : nat) (d : Z) :
  (i < Z.to_nat (hi - lo))%nat ->
  nth i (np_arange lo hi) d = (lo + Z.of_nat i)%Z.
Proof.
  intros H; unfold np_arange.
  rewrite nth_indep with (d' := (lo + Z.of_nat 0)%Z)
    by (now rewrite length_map, length_seq).
  rewrite (map_nth (fun i => (lo + Z.of_nat i)%Z)), seq_nth by assumption.
  reflexivity.
Qed.

(** ** The transition point for admissible parameters

    The facts of this section need [Qi <> 0] only, not [0 < Qi]: the sign of
    [Qi] cancels in [Qi / qlim]. *)

Section Transition_facts.
Variables Qi D B dlim : R.
Hypothesis HQ : Qi <> 0.
Hypothesis HD : 0 < D < 1.
Hypothesis HB : 0 < B.
Hypothesis Hd : 0 < dlim < 1.

Local Abbreviation Dn := (Dnom D B).
Local Abbreviation dl := (Dlimnom dlim).
Local Abbreviation ql := (Qlim Qi D B dlim).
Local Abbreviation ty := (Tyears Qi D B dlim).
Local Abbreviation tl := (Tlim Qi D B dlim).

Lemma first_power_gt_1 : 1 < Rpower (1 - D) (- B).
Proof.
  unfold Rpower.
  assert (ln (1 - D) < 0)
    by (rewrite <- ln_1; apply ln_increasing; lra).
  assert (0 < - B * ln (1 - D)) by nra.
  pose proof (exp_ineq1 (- B * ln (1 - D)) ltac:(lra)). lra.
Qed.

Lemma Dnom_positive : 0 < Dn.
Proof.
  unfold Dnom. pose proof first_power_gt_1.
  apply Rdiv_lt_0_compat; lra.
Qed.

Lemma Dlimnom_positive : 0 < dl.
Proof.
  unfold Dlimnom.
  assert (ln (1 - dlim) < 0)
    by (rewrite <- ln_1; apply ln_increasing; lra).
  lra.
Qed.

Lemma decline_ratio_positive : 0 < dl / Dn.
Proof.
  apply Rdiv_lt_0_compat; [apply Dlimnom_positive | apply Dnom_positive].
Qed.

Lemma Qlim_nonzero : ql <> 0.
Proof.
  unfold Qlim. pose proof (Rpower_positive (dl / Dn) (1 / B)).
  apply Rmult_integral_contrapositive_currified; lra.
Qed.

Lemma rate_ratio : Qi / ql = Rpower (dl / Dn) (- (1 / B)).
Proof.
  rewrite Rpower_Ropp. unfold Qlim.
  pose proof (Rpower_positive (dl / Dn) (1 / B)).
  field. split; lra.
Qed.

Lemma rate_ratio_positive : 0 < Qi / ql.
Proof. rewrite rate_ratio; apply Rpower_positive. Qed.

Lemma rate_ratio_power : Rpower (Qi / ql) B = Dn / dl.
Proof.
  rewrite rate_ratio, Rpower_mult.
  replace (- (1 / B) * B) with (- (1)) by (field; lra).
  rewrite Rpower_Ropp, Rpower_1 by apply decline_ratio_positive.
  pose proof Dnom_positive. pose proof Dlimnom_positive.
  field. split; lra.
Qed.

(** The hyperbolic base at the exact (un-rounded) transition time. *)
Lemma base_at_Tyears : 1 + B * Dn * ty = Dn / dl.
Proof.
  unfold Tyears. rewrite rate_ratio_power.
  pose proof Dnom_positive. pose proof Dlimnom_positive.
  field. repeat split; lra.
Qed.

Lemma IZR_Tlim : IZR tl / 365 = IZR (m_ceil ty).
Proof. unfold Tlim. rewrite mult_IZR. field. Qed.

(** The hyperbolic base at the computed transition day is positive, also
    when the transition lies before day 0. *)
Lemma base_at_Tlim : Dn / dl <= 1 + B * Dn * IZR tl / 365.
Proof.
  rewrite <- base_at_Tyears.
  replace (1 + B * Dn * IZR tl / 365) with (1 + B * Dn * (IZR tl / 365))
    by (field; lra).
  rewrite IZR_Tlim.
  pose proof Dnom_positive. destruct (m_ceil_spec ty) as [_ Hc].
  assert (0 < B * Dn) by nra. nra.
Qed.

Lemma base_at_Tlim_positive : 0 < 1 + B * Dn * IZR tl / 365.
Proof.
  pose proof base_at_Tlim. pose proof Dnom_positive.
  pose proof Dlimnom_positive.
  assert (0 < Dn / dl) by (apply Rdiv_lt_0_compat; lra). lra.
Qed.

Lemma Qlim_alt : ql = Qi / Rpower (Dn / dl) (1 / B).
Proof.
  unfold Qlim.
  replace (dl / Dn) with (/ (Dn / dl))
    by (pose proof Dnom_positive; pose proof Dlimnom_positive; field; split; lra).
  pose proof Dnom_positive. pose proof Dlimnom_positive.
  assert (0 < Dn / dl) by (apply Rdiv_lt_0_compat; lra).
  assert (E : Rpower (/ (Dn / dl)) (1 / B) = / Rpower (Dn / dl) (1 / B)).
  { unfold Rpower. rewrite ln_Rinv by assumption.
    rewrite <- exp_Ropp. f_equal. ring. }
  rewrite E. reflexivity.
Qed.

Lemma Arps_transition_value :
  Arps_transition Qi D B dlim = Ok (Transition Dn dl ql tl).
Proof.
  unfold Arps_transition.
  rewrite py_pow_positive by lra. cbn [bind].
  replace (-1 * B) with (- B) by ring.
  rewrite py_div_nonzero by lra. cbn [bind]. fold Dn.
  rewrite m_log_positive by lra. cbn [bind].
  replace (ln (1 - dlim) / -1) with dl by (unfold Dlimnom; field).
  pose proof Dnom_positive. pose proof decline_ratio_positive.
  rewrite py_div_nonzero by lra. cbn [bind].
  rewrite py_div_nonzero by lra. cbn [bind].
  rewrite py_pow_positive by assumption. cbn [bind]. fold ql.
  rewrite (py_div_nonzero _ Qlim_nonzero). cbn [bind].
  rewrite py_pow_positive by apply rate_ratio_positive. cbn [bind].
  rewrite py_div_nonzero by nra. cbn [bind].
  reflexivity.
Qed.

Lemma cumArps_transition_value :
  cumArps_transition Qi D B dlim = Ok (Transition Dn dl ql tl).
Proof.
  unfold cumArps_transition.
  rewrite py_pow_positive by lra. cbn [bind].
  replace (-1 * B) with (- B) by ring.
  rewrite py_div_nonzero by lra. cbn [bind]. fold Dn.
  rewrite m_log_positive by lra. cbn [bind].
  replace (-1 * ln (1 - dlim)) with dl by (unfold Dlimnom; ring).
  pose proof Dnom_positive. pose proof decline_ratio_positive.
  rewrite py_div_nonzero by lra. cbn [bind].
  rewrite py_div_nonzero by lra. cbn [bind].
  rewrite py_pow_positive by assumption. cbn [bind]. fold ql.
  rewrite (py_div_nonzero _ Qlim_nonzero). cbn [bind].
  rewrite py_pow_positive by apply rate_ratio_positive. cbn [bind].
  rewrite py_div_nonzero by nra. cbn [bind].
  reflexivity.
Qed.

End Transition_facts.

(** C2.  For valid parameters [Arps] and [cumArps] both compute the
    transition day as [ceil(((Qi/qlim)^B - 1) / (B*D_nom)) * 365]: the ceiling
    is taken of the year count, then scaled to days, so the day is a
    multiple of 365. *)
Theorem transition_on_year_boundary (Qi D B dlim : R) :
  valid Qi D B dlim ->
  exists tr tr',
    Arps_transition Qi D B dlim = Ok tr
    /\ cumArps_transition Qi D B dlim = Ok tr'
    /\ D_nom tr = (Rpower (1 - D) (- B) - 1) / B
    /\ dlim_nom tr = - ln (1 - dlim)
    /\ qlim tr = Qi * Rpower (dlim_nom tr / D_nom tr) (1 / B)
    /\ tlim tr =
       (m_ceil ((Rpower (Qi / qlim tr) B - 1) / (B * D_nom tr)) * 365)%Z
    /\ tr' = tr
    /\ (tlim tr mod 365 = 0)%Z.
Proof.
  intros (HQ & HD & HB & Hd).
  exists (Transition (Dnom D B) (Dlimnom dlim) (Qlim Qi D B dlim) (Tlim Qi D B dlim)).
  eexists.
  split; [apply Arps_transition_value; lra|].
  split; [apply cumArps_transition_value; lra|].
  cbn [D_nom dlim_nom qlim tlim].
  repeat split.
  unfold Tlim. apply Z.mod_mul. lia.
Qed.

Lemma transition_on_year_boundary_witness :
  exists tr tr',
    Arps_transition 1 (1/2) 1 (1/2) = Ok tr
    /\ cumArps_transition 1 (1/2) 1 (1/2) = Ok tr'
    /\ D_nom tr = (Rpower (1 - 1/2) (- 1) - 1) / 1
    /\ dlim_nom tr = - ln (1 - 1/2)
    /\ qlim tr = 1 * Rpower (dlim_nom tr / D_nom tr) (1 / 1)
    /\ tlim tr =
       (m_ceil ((Rpower (1 / qlim tr) 1 - 1) / (1 * D_nom tr)) * 365)%Z
    /\ tr' = tr
    /\ (tlim tr mod 365 = 0)%Z.
Proof.
  apply (@transition_on_year_boundary 1 (1/2) 1 (1/2)).
  unfold valid; lra.
Defined.

(** ** The daily and monthly series *)

Lemma q_hyperbolic_value (Qi B Dn : R) (day : Z) :
  B <> 0 -> 0 < 1 + B * Dn * IZR day / 365 ->
  q_hyperbolic Qi B Dn day = Ok (Qi / Rpower (1 + B * Dn * IZR day / 365) (1 / B)).
Proof.
  intros HB Hbase. unfold q_hyperbolic. cbv zeta.
  rewrite py_div_nonzero by assumption. cbn [bind].
  rewrite np_pow_positive by assumption. cbn [bind].
  apply np_div_nonzero.
  pose proof (Rpower_positive (1 + B * Dn * IZR day / 365) (1 / B)). lra.
Qed.

Lemma q_exponential_value (ql dl : R) (tl day : Z) :
  q_exponential ql dl tl day = ql * exp (- dl * (IZR day - IZR tl) / 365).
Proof.
  unfold q_exponential, m_exp. rewrite minus_IZR.
  do 2 f_equal. field.
Qed.

Section Arps_facts.
Variables Qi D B dlim : R.
Hypothesis HQ : Qi <> 0.
Hypothesis HD : 0 < D < 1.
Hypothesis HB : 0 < B.
Hypothesis Hd : 0 < dlim < 1.

Lemma daily_rate_value (day : Z) :
  (0 <= day)%Z ->
  (if (day <? Tlim Qi D B dlim)%Z
   then q_hyperbolic Qi B (Dnom D B) day
   else Ok (q_exponential (Qlim Qi D B dlim) (Dlimnom dlim) (Tlim Qi D B dlim) day))
  = Ok (Rate Qi D B dlim day).
Proof.
  intros Hday. unfold Rate.
  destruct (day <? Tlim Qi D B dlim)%Z.
  - apply q_hyperbolic_value; [lra|].
    pose proof (Dnom_positive HD HB).
    pose proof (IZR_le 0 day Hday).
    assert (0 <= B * Dnom D B * IZR day)
      by (apply Rmult_le_pos; [apply Rmult_le_pos|]; lra).
    lra.
  - now rewrite q_exponential_value.
Qed.

(** [Arps] up to the bucketing step. *)
Lemma Arps_unfolded (years : Z) :
  Arps Qi D B dlim years =
  (let q_daily := map (Rate Qi D B dlim) (np_arange 0 (years * 365 + 1)) in
   group_by_month <- split q_daily (years * 12) ;;
   Ok (q_daily, map py_sum group_by_month)).
Proof.
  unfold Arps.
  rewrite (Arps_transition_value HQ HD HB Hd). cbn [bind D_nom dlim_nom qlim tlim].
  rewrite (mapM_pure _ (Rate Qi D B dlim)).
  - reflexivity.
  - intros day Hin. apply In_np_arange in Hin.
    apply daily_rate_value. lia.
Qed.

Lemma Arps_returns (years : Z) :
  (0 < years)%Z ->
  exists q_daily q_monthly,
    Arps Qi D B dlim years = Ok (q_daily, q_monthly)
    /\ q_daily = map (Rate Qi D B dlim) (np_arange 0 (years * 365 + 1))
    /\ Z.of_nat (length q_monthly) = (years * 12)%Z.
Proof.
  intros Hy. rewrite Arps_unfolded. cbv zeta.
  destruct (@split_spec R (map (Rate Qi D B dlim) (np_arange 0 (years * 365 + 1)))
              (years * 12)%Z ltac:(lia)) as (groups & -> & Hlen & _).
  cbn [bind]. do 2 eexists. split; [reflexivity|]. split; [reflexivity|].
  now rewrite length_map.
Qed.

(** With [years = 0] the one-element daily list is bucketed into [0]
    groups, and the [divmod] of [split] raises. *)
Lemma Arps_zero_years :
  Arps Qi D B dlim 0 = Raise ZeroDivisionError.
Proof. rewrite Arps_unfolded. reflexivity. Qed.

End Arps_facts.

Lemma nth_daily (Qi D B dlim : R) (years t : Z) :
  (0 <= t <= years * 365)%Z ->
  nth (Z.to_nat t) (map (Rate Qi D B dlim) (np_arange 0 (years * 365 + 1))) 0
  = Rate Qi D B dlim t.
Proof.
  intros Ht.
  rewrite nth_indep with (d' := Rate Qi D B dlim 0%Z)
    by (rewrite length_map, length_np_arange; lia).
  rewrite map_nth, nth_np_arange by lia.
  f_equal. lia.
Qed.

(** C1.  For valid parameters and [years > 0], element [t] of the daily
    series returned by [Arps], for every day [0 <= t <= years*365], is
    [Qi / (1 + B*D_nom*t/365)^(1/B)] when [t < tlim] and
    [qlim * exp(-Dlim_nom*(t - tlim)/365)] otherwise. *)
Theorem Arps_daily_rates (Qi D B dlim : R) (years : Z) :
  valid Qi D B dlim -> (0 < years)%Z ->
  let D_nom := ((Rpower (1 - D) (- B) - 1) / B) in
  let Dlim_nom := - ln (1 - dlim) in
  let qlim := Qi * Rpower (Dlim_nom / D_nom) (1 / B) in
  let tlim := (m_ceil ((Rpower (Qi / qlim) B - 1) / (B * D_nom)) * 365)%Z in
  exists q_daily q_monthly,
    Arps Qi D B dlim years = Ok (q_daily, q_monthly)
    /\ forall t, (0 <= t <= years * 365)%Z ->
         nth (Z.to_nat t) q_daily 0 =
         if (t <? tlim)%Z
         then Qi / Rpower (1 + B * D_nom * IZR t / 365) (1 / B)
         else qlim * exp (- Dlim_nom * (IZR t - IZR tlim) / 365).
Proof.
  intros (HQ & HD & HB & Hd) Hy; cbv zeta.
  destruct (@Arps_returns Qi D B dlim ltac:(lra) HD HB Hd years Hy)
    as (qd & qm & E & -> & _).
  exists (map (Rate Qi D B dlim) (np_arange 0 (years * 365 + 1))), qm.
  split; [exact E|].
  intros t Ht. now rewrite nth_daily.
Qed.

Lemma Arps_daily_rates_witness :
  exists q_daily q_monthly,
    Arps 1 (1/2) 1 (1/2) 1 = Ok (q_daily, q_monthly)
    /\ forall t, (0 <= t <= 1 * 365)%Z ->
         nth (Z.to_nat t) q_daily 0 = Rate 1 (1/2) 1 (1/2) t.
Proof.
  apply (@Arps_daily_rates 1 (1/2) 1 (1/2) 1); [unfold valid; lra | lia].
Defined.

(** C4.  For valid parameters and [years > 0], [Arps] returns a daily series
    of [years*365 + 1] values and a monthly series of [years*12] values. *)
Theorem Arps_lengths (Qi D B dlim : R) (years : Z) :
  valid Qi D B dlim -> (0 < years)%Z ->
  exists q_daily q_monthly,
    Arps Qi D B dlim years = Ok (q_daily, q_monthly)
    /\ Z.of_nat (length q_daily) = (years * 365 + 1)%Z
    /\ Z.of_nat (length q_monthly) = (years * 12)%Z.
Proof.
  intros (HQ & HD & HB & Hd) Hy.
  destruct (@Arps_returns Qi D B dlim ltac:(lra) HD HB Hd years Hy)
    as (qd & qm & E & -> & Hm).
  do 2 eexists. split; [exact E|]. split; [|exact Hm].
  rewrite length_map, length_np_arange. lia.
Qed.

Lemma Arps_lengths_witness :
  exists q_daily q_monthly,
    Arps 10000 (7/10) (14/10) (1/10) 40 = Ok (q_daily, q_monthly)
    /\ Z.of_nat (length q_daily) = 14601%Z
    /\ Z.of_nat (length q_monthly) = 480%Z.
Proof.
  apply (@Arps_lengths 10000 (7/10) (14/10) (1/10) 40); [unfold valid; lra | lia].
Defined.

(** C9, as the claim states it, fails: with [years = 0] the call does not
    return. *)
Lemma Arps_zero_years_counterexample :
  valid 1 (1/2) 1 (1/2)
  /\ Arps 1 (1/2) 1 (1/2) 0 = Raise ZeroDivisionError
  /\ ~ (exists q_daily q_monthly,
          Arps 1 (1/2) 1 (1/2) 0 = Ok (q_daily, q_monthly)
          /\ q_daily = [1] /\ q_monthly = []).
Proof.
  assert (E : Arps 1 (1/2) 1 (1/2) 0 = Raise ZeroDivisionError)
    by (apply Arps_zero_years; lra).
  split; [unfold valid; lra|]. split; [exact E|].
  intros (qd & qm & H & _). rewrite E in H. discriminate H.
Qed.

(** C9, amended.  For valid parameters, [Arps] with [years = 0] does not
    return: bucketing the daily series into [0 * 12 = 0] groups raises
    [ZeroDivisionError] in [split], and no series is produced. *)
Theorem Arps_zero_years_raises (Qi D B dlim : R) :
  valid Qi D B dlim ->
  Arps Qi D B dlim 0 = Raise ZeroDivisionError.
Proof.
  intros (HQ & HD & HB & Hd). apply Arps_zero_years; lra.
Qed.

Lemma Arps_zero_years_raises_witness :
  Arps 10000 (7/10) (14/10) (1/10) 0 = Raise ZeroDivisionError.
Proof.
  apply (@Arps_zero_years_raises 10000 (7/10) (14/10) (1/10)).
  unfold valid; lra.
Defined.

(** ** Parameters outside the valid domain *)

Lemma Arps_transition_raises (Qi D B dlim : R) (years : Z) (e : exn) :
  Arps_transition Qi D B dlim = Raise e -> Arps Qi D B dlim years = Raise e.
Proof. unfold Arps; intros ->; reflexivity. Qed.

(** [D = 1]: line 30 evaluates [0.0 ** -B]. *)
Lemma Arps_transition_D_one (Qi B dlim : R) :
  0 < B -> Arps_transition Qi 1 B dlim = Raise ZeroDivisionError.
Proof.
  intros HB. unfold Arps_transition, py_pow.
  destruct (Rlt_dec 0 (1 - 1)); [lra|].
  destruct (Req_dec_T (-1 * B) 0); [lra|].
  destruct (Req_dec_T (1 - 1) 0); [|lra].
  destruct (Rlt_dec (-1 * B) 0); [reflexivity | lra].
Qed.

(** [B = 0]: line 30 divides by [B]. *)
Lemma Arps_transition_B_zero (Qi D dlim : R) :
  Arps_transition Qi D 0 dlim = Raise ZeroDivisionError.
Proof.
  unfold Arps_transition.
  assert (E : exists p, py_pow (1 - D) (-1 * 0) = Ok p).
  { unfold py_pow. destruct (Rlt_dec 0 (1 - D)); [eauto|].
    destruct (Req_dec_T (-1 * 0) 0); [eauto | lra]. }
  destruct E as [p ->]. cbn [bind]. now rewrite py_div_zero.
Qed.

(** [dlim >= 1]: line 31 takes [m.log] of a non-positive number. *)
Lemma Arps_transition_dlim_large (Qi D B dlim : R) :
  0 < D < 1 -> 0 < B -> 1 <= dlim ->
  Arps_transition Qi D B dlim = Raise ValueError.
Proof.
  intros HD HB Hd. unfold Arps_transition.
  rewrite py_pow_positive by lra. cbn [bind].
  rewrite py_div_nonzero by lra. cbn [bind].
  now rewrite m_log_nonpositive by lra.
Qed.

(** [Qi = 0]: [qlim] is [0] and line 33 divides by it. *)
Lemma Arps_transition_Qi_zero (D B dlim : R) :
  0 < D < 1 -> 0 < B -> 0 < dlim < 1 ->
  Arps_transition 0 D B dlim = Raise ZeroDivisionError.
Proof.
  intros HD HB Hd. unfold Arps_transition.
  rewrite py_pow_positive by lra. cbn [bind].
  replace (-1 * B) with (- B) by ring.
  rewrite py_div_nonzero by lra. cbn [bind]. fold (Dnom D B).
  rewrite m_log_positive by lra. cbn [bind].
  replace (ln (1 - dlim) / -1) with (Dlimnom dlim) by (unfold Dlimnom; field).
  pose proof (Dnom_positive HD HB).
  pose proof (decline_ratio_positive HD HB Hd).
  rewrite py_div_nonzero by lra. cbn [bind].
  rewrite py_div_nonzero by lra. cbn [bind].
  rewrite py_pow_positive by assumption. cbn [bind].
  rewrite Rmult_0_l, py_div_zero. reflexivity.
Qed.

(** C6, as the claim states it, fails: a negative [Qi] is not rejected. *)
Lemma Arps_invalid_counterexample :
  -1 <= 0
  /\ (exists q_daily q_monthly,
        Arps (-1) (1/2) 1 (1/2) 1 = Ok (q_daily, q_monthly))
  /\ ~ fails (Arps (-1) (1/2) 1 (1/2) 1).
Proof.
  destruct (@Arps_returns (-1) (1/2) 1 (1/2)
              ltac:(lra) ltac:(lra) ltac:(lra) ltac:(lra) 1%Z ltac:(lia))
    as (qd & qm & E & _).
  split; [lra|]. split; [now exists qd, qm|].
  intros [e He]. rewrite E in He. discriminate He.
Qed.

(** C6, amended.  [Arps] checks nothing itself; it fails where its arithmetic
    does: with [D = 1] (and [B > 0]), with [B = 0], with [Dlim >= 1] (and
    [0 < D < 1], [B > 0]) and with [Qi = 0] (the other parameters valid).
    The exception is Python's [ZeroDivisionError] or [ValueError], raised
    while the transition point is computed, and no series is returned. *)
Theorem Arps_invalid_parameters (Qi D B dlim : R) (years : Z) :
  (D = 1 /\ 0 < B)
  \/ B = 0
  \/ (0 < D < 1 /\ 0 < B /\ 1 <= dlim)
  \/ (Qi = 0 /\ 0 < D < 1 /\ 0 < B /\ 0 < dlim < 1) ->
  exists e,
    Arps_transition Qi D B dlim = Raise e
    /\ Arps Qi D B dlim years = Raise e.
Proof.
  intros [(-> & HB) | [-> | [(HD & HB & Hd) | (-> & HD & HB & Hd)]]].
  - exists ZeroDivisionError.
    pose proof (Arps_transition_D_one Qi dlim HB) as E.
    split; [exact E | now apply Arps_transition_raises].
  - exists ZeroDivisionError.
    pose proof (Arps_transition_B_zero Qi D dlim) as E.
    split; [exact E | now apply Arps_transition_raises].
  - exists ValueError.
    pose proof (Arps_transition_dlim_large Qi HD HB Hd) as E.
    split; [exact E | now apply Arps_transition_raises].
  - exists ZeroDivisionError.
    pose proof (Arps_transition_Qi_zero HD HB Hd) as E.
    split; [exact E | now apply Arps_transition_raises].
Qed.

Lemma Arps_invalid_parameters_witness :
  exists e,
    Arps_transition 10000 1 (14/10) (1/10) = Raise e
    /\ Arps 10000 1 (14/10) (1/10) 40 = Raise e.
Proof.
  apply (@Arps_invalid_parameters 10000 1 (14/10) (1/10) 40).
  left. split; [reflexivity | lra].
Defined.

(** ** Continuity of the rate at the transition *)

Lemma m_ceil_unique (x : R) (z : Z) :
  IZR z - 1 < x <= IZR z -> m_ceil x = z.
Proof.
  intros [H1 H2]. destruct (m_ceil_spec x) as [H3 H4].
  assert (IZR (m_ceil x) < IZR (z + 1)) by (rewrite plus_IZR; lra).
  assert (IZR z < IZR (m_ceil x + 1)) by (rewrite plus_IZR; lra).
  apply lt_IZR in H, H0. lia.
Qed.

Section Transition_gap.
Variables Qi D B dlim : R.
Hypothesis HQ : 0 < Qi.
Hypothesis HD : 0 < D < 1.
Hypothesis HB : 0 < B.
Hypothesis Hd : 0 < dlim < 1.

Local Abbreviation Dn := (Dnom D B).
Local Abbreviation dl := (Dlimnom dlim).
Local Abbreviation ql := (Qlim Qi D B dlim).
Local Abbreviation ty := (Tyears Qi D B dlim).
Local Abbreviation tl := (Tlim Qi D B dlim).

Lemma q_exponential_at_tlim : q_exponential ql dl tl tl = ql.
Proof.
  rewrite q_exponential_value.
  replace (- dl * (IZR tl - IZR tl) / 365) with 0 by field.
  rewrite exp_0. ring.
Qed.

Lemma q_hyperbolic_at_tlim :
  q_hyperbolic Qi B Dn tl
  = Ok (Qi / Rpower (1 + B * Dn * IZR tl / 365) (1 / B)).
Proof.
  apply q_hyperbolic_value; [lra|].
  apply base_at_Tlim_positive; lra.
Qed.

Lemma hyperbolic_below_qlim :
  Qi / Rpower (1 + B * Dn * IZR tl / 365) (1 / B) <= ql.
Proof.
  rewrite (@Qlim_alt Qi D B dlim HD HB Hd).
  pose proof (Dnom_positive HD HB). pose proof (Dlimnom_positive Hd).
  assert (0 < Dn / dl) by (apply Rdiv_lt_0_compat; lra).
  assert (0 < 1 / B) by (apply Rdiv_lt_0_compat; lra).
  pose proof (@base_at_Tlim Qi D B dlim ltac:(lra) HD HB Hd) as Hb.
  pose proof (Rle_Rpower_l (Dn / dl) (1 + B * Dn * IZR tl / 365) (1 / B)
                ltac:(lra) (conj H1 Hb)) as Hp.
  pose proof (Rpower_positive (Dn / dl) (1 / B)).
  unfold Rdiv at 1 4.
  apply Rmult_le_compat_l; [lra|].
  apply Rinv_le_contravar; assumption.
Qed.

Lemma hyperbolic_meets_qlim_iff :
  Qi / Rpower (1 + B * Dn * IZR tl / 365) (1 / B) = ql
  <-> IZR (m_ceil ty) = ty.
Proof.
  rewrite (@Qlim_alt Qi D B dlim HD HB Hd).
  pose proof (Dnom_positive HD HB). pose proof (Dlimnom_positive Hd).
  assert (0 < Dn / dl) by (apply Rdiv_lt_0_compat; lra).
  assert (0 < 1 / B) by (apply Rdiv_lt_0_compat; lra).
  pose proof (@base_at_Tlim_positive Qi D B dlim ltac:(lra) HD HB Hd) as Hb.
  pose proof (@base_at_Tyears Qi D B dlim ltac:(lra) HD HB Hd) as Hy.
  pose proof (@IZR_Tlim Qi D B dlim) as Ht.
  pose proof (Rpower_positive (Dn / dl) (1 / B)).
  pose proof (Rpower_positive (1 + B * Dn * IZR tl / 365) (1 / B)).
  assert (Hbase : 1 + B * Dn * IZR tl / 365 = 1 + B * Dn * IZR (m_ceil ty))
    by (rewrite <- Ht; field).
  split.
  - intros E.
    assert (Ep : Rpower (1 + B * Dn * IZR tl / 365) (1 / B)
                 = Rpower (Dn / dl) (1 / B)).
    { apply Rinv_eq_reg. apply Rmult_eq_reg_l with Qi; [exact E | lra]. }
    apply Rpower_base_inj in Ep; try assumption.
    rewrite Hbase, <- Hy in Ep.
    assert (0 < B * Dn) by nra.
    apply Rmult_eq_reg_l with (B * Dn); lra.
  - intros E. rewrite Hbase, E, Hy. reflexivity.
Qed.

End Transition_gap.

(** A parameter set on which every quantity has a closed value:
    [Qi = 1], [D = 1/2], [B = 1], [Dlim = 1/2]. *)

Lemma ln_2_lt_1 : ln 2 < 1.
Proof.
  rewrite <- (ln_exp 1). apply ln_increasing; [lra|].
  pose proof (exp_ineq1 1 ltac:(lra)). lra.
Qed.

Lemma Rpower_half_neg_1 : Rpower (1 - 1/2) (- (1)) = 2.
Proof.
  rewrite Rpower_Ropp, Rpower_1 by lra. field.
Qed.

Lemma Dlimnom_half : Dlimnom (1/2) = ln 2.
Proof.
  unfold Dlimnom. replace (1 - 1/2) with (/ 2) by field.
  rewrite ln_Rinv by lra. ring.
Qed.

Lemma Dnom_half_1 : Dnom (1/2) 1 = 1.
Proof. unfold Dnom. rewrite Rpower_half_neg_1. field. Qed.

Lemma Qlim_example : Qlim 1 (1/2) 1 (1/2) = ln 2.
Proof.
  unfold Qlim. rewrite Dnom_half_1, Dlimnom_half.
  replace (1 / 1) with 1 by field.
  replace (ln 2 / 1) with (ln 2) by field.
  pose proof ln_lt_2.
  rewrite Rpower_1 by lra. ring.
Qed.

Lemma Tyears_example : Tyears 1 (1/2) 1 (1/2) = / ln 2 - 1.
Proof.
  pose proof ln_lt_2.
  unfold Tyears. rewrite Qlim_example, Dnom_half_1.
  assert (0 < 1 / ln 2) by (apply Rdiv_lt_0_compat; lra).
  rewrite Rpower_1 by assumption. field. lra.
Qed.

Lemma Tyears_example_bounds : 0 < Tyears 1 (1/2) 1 (1/2) < 1.
Proof.
  rewrite Tyears_example.
  pose proof ln_lt_2. pose proof ln_2_lt_1.
  assert (E : / ln 2 * ln 2 = 1) by (apply Rinv_l; lra).
  assert (0 < / ln 2) by (apply Rinv_0_lt_compat; lra).
  split; nra.
Qed.

Lemma Tlim_example : Tlim 1 (1/2) 1 (1/2) = 365%Z.
Proof.
  unfold Tlim. rewrite (@m_ceil_unique _ 1%Z); [reflexivity|].
  pose proof Tyears_example_bounds. simpl. lra.
Qed.

(** C7, as the claim states it, fails.  For [Qi = 1], [D = 1/2], [B = 1],
    [Dlim = 1/2] the transition is computed as day 365 with [qlim = ln 2];
    the hyperbolic formula gives [1/2] on that day, the exponential one
    [ln 2]. *)
Lemma rate_continuity_counterexample :
  valid 1 (1/2) 1 (1/2)
  /\ Arps_transition 1 (1/2) 1 (1/2) = Ok (Transition 1 (ln 2) (ln 2) 365)
  /\ q_hyperbolic 1 1 1 365 = Ok (1/2)
  /\ q_exponential (ln 2) (ln 2) 365 365 = ln 2
  /\ 1/2 <> ln 2.
Proof.
  split; [unfold valid; lra|].
  split.
  { rewrite Arps_transition_value by lra.
    now rewrite Dnom_half_1, Dlimnom_half, Qlim_example, Tlim_example. }
  split.
  { rewrite q_hyperbolic_value by lra.
    replace (1 + 1 * 1 * 365 / 365) with 2 by field.
    replace (1 / 1) with 1 by field.
    now rewrite Rpower_1 by lra. }
  split.
  { rewrite q_exponential_value.
    replace (- ln 2 * (365 - 365) / 365) with 0 by field.
    rewrite exp_0. ring. }
  pose proof ln_lt_2. lra.
Qed.

(** C7, amended.  For valid parameters the exponential formula gives [qlim]
    on the transition day, and the hyperbolic formula gives [qlim] at the
    exact transition time [Y = ((Qi/qlim)^B - 1) / (B*D_nom)] years.  On the
    computed day [tlim = ceil(Y) * 365] the hyperbolic formula gives at most
    [qlim], and exactly [qlim] if and only if [Y] is a whole number of
    years. *)
Theorem rate_at_transition (Qi D B dlim : R) :
  valid Qi D B dlim ->
  exists tr h,
    Arps_transition Qi D B dlim = Ok tr
    /\ q_hyperbolic Qi B (D_nom tr) (tlim tr) = Ok h
    /\ q_exponential (qlim tr) (dlim_nom tr) (tlim tr) (tlim tr) = qlim tr
    /\ (let Y := (Rpower (Qi / qlim tr) B - 1) / (B * D_nom tr) in
        Qi / Rpower (1 + B * D_nom tr * Y) (1 / B) = qlim tr
        /\ tlim tr = (m_ceil Y * 365)%Z
        /\ h <= qlim tr
        /\ (h = qlim tr <-> IZR (m_ceil Y) = Y)).
Proof.
  intros (HQ & HD & HB & Hd).
  exists (Transition (Dnom D B) (Dlimnom dlim) (Qlim Qi D B dlim) (Tlim Qi D B dlim)).
  exists (Qi / Rpower (1 + B * Dnom D B * IZR (Tlim Qi D B dlim) / 365) (1 / B)).
  cbn [D_nom dlim_nom qlim tlim].
  split; [apply Arps_transition_value; lra|].
  split; [now apply q_hyperbolic_at_tlim|].
  split; [apply q_exponential_at_tlim|].
  cbv zeta. fold (Tyears Qi D B dlim).
  split.
  { rewrite base_at_Tyears by lra. symmetry. now apply Qlim_alt. }
  split; [reflexivity|].
  split; [now apply hyperbolic_below_qlim|].
  now apply hyperbolic_meets_qlim_iff.
Qed.

Lemma rate_at_transition_witness :
  exists tr h,
    Arps_transition 10000 (7/10) (14/10) (1/10) = Ok tr
    /\ q_hyperbolic 10000 (14/10) (D_nom tr) (tlim tr) = Ok h
    /\ q_exponential (qlim tr) (dlim_nom tr) (tlim tr) (tlim tr) = qlim tr
    /\ (let Y := (Rpower (10000 / qlim tr) (14/10) - 1) / (14/10 * D_nom tr) in
        10000 / Rpower (1 + 14/10 * D_nom tr * Y) (1 / (14/10)) = qlim tr
        /\ tlim tr = (m_ceil Y * 365)%Z
        /\ h <= qlim tr
        /\ (h = qlim tr <-> IZR (m_ceil Y) = Y)).
Proof.
  apply (@rate_at_transition 10000 (7/10) (14/10) (1/10)).
  unfold valid; lra.
Defined.

(** ** Cumulative volume *)

Lemma exp_monotone (x y : R) : x <= y -> exp x <= exp y.
Proof.
  intros [H | ->]; [|lra].
  pose proof (exp_increasing x y H). lra.
Qed.

Lemma cum_hyperbolic_value (Qi D B base : R) :
  0 < D < 1 -> 0 < B -> B <> 1 -> 0 < base ->
  cum_hyperbolic Qi B (Dnom D B) base = Ok (Cum_hyperbolic Qi D B base).
Proof.
  intros HD HB HB1 Hbase. unfold cum_hyperbolic.
  pose proof (Dnom_positive HD HB).
  rewrite py_div_nonzero
    by (apply Rmult_integral_contrapositive_currified; lra).
  cbn [bind]. rewrite py_div_nonzero by lra. cbn [bind].
  rewrite py_pow_positive by assumption. cbn [bind].
  reflexivity.
Qed.

Section Cum_facts.
Variables Qi D B dlim : R.
Hypothesis HQ : 0 < Qi.
Hypothesis HD : 0 < D < 1.
Hypothesis HB : 0 < B.
Hypothesis HB1 : B <> 1.
Hypothesis Hd : 0 < dlim < 1.

Local Abbreviation Dn := (Dnom D B).
Local Abbreviation dl := (Dlimnom dlim).
Local Abbreviation ql := (Qlim Qi D B dlim).
Local Abbreviation ty := (Tyears Qi D B dlim).
Local Abbreviation tl := (Tlim Qi D B dlim).

Lemma month_base_positive (month : Z) :
  (0 <= month)%Z -> 1 <= 1 + B * Dn * IZR month / 12.
Proof.
  intros Hm. pose proof (Dnom_positive HD HB).
  pose proof (IZR_le 0 month Hm).
  assert (0 <= B * Dn * IZR month)
    by (apply Rmult_le_pos; [apply Rmult_le_pos|]; lra).
  lra.
Qed.

Lemma cumArps_value (month : Z) :
  (0 <= month)%Z ->
  cumArps Qi D B dlim month = Ok (Cum Qi D B dlim month).
Proof.
  intros Hm. unfold cumArps, Cum.
  rewrite (@cumArps_transition_value Qi D B dlim ltac:(lra) HD HB Hd).
  cbn [bind D_nom dlim_nom qlim tlim].
  rewrite cum_hyperbolic_value;
    [|assumption..|apply base_at_Tlim_positive; lra].
  cbn [bind].
  destruct (Rlt_dec (IZR (month * 365) / 12) (IZR tl)).
  - apply cum_hyperbolic_value; try assumption.
    pose proof (month_base_positive Hm). lra.
  - pose proof (Dlimnom_positive Hd).
    rewrite py_div_nonzero by lra. cbn [bind]. reflexivity.
Qed.

(** The hyperbolic cumulative volume grows with the base of its power,
    for [B < 1] and for [B > 1] alike. *)
Lemma Cum_hyperbolic_monotone (u v : R) :
  0 < u <= v -> Cum_hyperbolic Qi D B u <= Cum_hyperbolic Qi D B v.
Proof.
  intros Huv. unfold Cum_hyperbolic.
  pose proof (Dnom_positive HD HB) as HDn.
  assert (Hinv : 1 / B * B = 1) by (field; lra).
  assert (0 < 1 / B) by (apply Rdiv_lt_0_compat; lra).
  destruct (Rtotal_order B 1) as [Hlt | [Heq | Hgt]]; [|contradiction|].
  - assert (Hc : 0 < Qi / ((1 - B) * Dn))
      by (apply Rdiv_lt_0_compat; [|apply Rmult_lt_0_compat]; lra).
    assert (He : 1 - 1 / B <= 0) by nra.
    pose proof (Rpower_neg_exponent_antitone He Huv).
    apply Rmult_le_compat_l; [lra | lra].
  - assert (Hc : 0 < Qi / ((B - 1) * Dn))
      by (apply Rdiv_lt_0_compat; [|apply Rmult_lt_0_compat]; lra).
    assert (He : 0 <= 1 - 1 / B) by nra.
    pose proof (Rle_Rpower_l u v (1 - 1 / B) He Huv).
    replace (Qi / ((1 - B) * Dn)) with (- (Qi / ((B - 1) * Dn)))
      by (field; split; lra).
    set (c := Qi / ((B - 1) * Dn)) in *.
    set (pu := Rpower u (1 - 1 / B)) in *.
    set (pv := Rpower v (1 - 1 / B)) in *.
    nra.
Qed.

Lemma Cum_monotone (m1 m2 : Z) :
  (0 <= m1 <= m2)%Z -> Cum Qi D B dlim m1 <= Cum Qi D B dlim m2.
Proof.
  intros [H0 H12]. unfold Cum.
  pose proof (Dnom_positive HD HB) as HDn.
  pose proof (Dlimnom_positive Hd) as Hdl.
  pose proof (IZR_le _ _ H12) as Hle.
  pose proof (month_base_positive H0) as Hb1.
  assert (HBD : 0 < B * Dn) by nra.
  assert (Hx1 : IZR (m1 * 365) / 12 = IZR m1 * 365 / 12)
    by (now rewrite mult_IZR).
  assert (Hx2 : IZR (m2 * 365) / 12 = IZR m2 * 365 / 12)
    by (now rewrite mult_IZR).
  rewrite Hx1, Hx2.
  assert (Hql : 0 < ql / dl).
  { apply Rdiv_lt_0_compat; [|assumption].
    unfold Qlim. apply Rmult_lt_0_compat; [assumption | apply Rpower_positive]. }
  destruct (Rlt_dec (IZR m1 * 365 / 12) (IZR tl)) as [L1 | G1];
    destruct (Rlt_dec (IZR m2 * 365 / 12) (IZR tl)) as [L2 | G2].
  - apply Cum_hyperbolic_monotone. nra.
  - pose proof (Cum_hyperbolic_monotone
                  (u := 1 + B * Dn * IZR m1 / 12)
                  (v := 1 + B * Dn * IZR tl / 365) ltac:(nra)) as Hh.
    assert (Hexp : exp (- dl * (IZR m2 * 365 / 12 - IZR tl) / 365) <= 1).
    { rewrite <- exp_0. apply exp_monotone. nra. }
    set (ex := exp _) in *.
    assert (0 <= ql / dl * 365 * (1 - ex)) by nra.
    lra.
  - lra.
  - assert (Hexp : exp (- dl * (IZR m2 * 365 / 12 - IZR tl) / 365)
                   <= exp (- dl * (IZR m1 * 365 / 12 - IZR tl) / 365)).
    { apply exp_monotone. nra. }
    set (e1 := exp (- dl * (IZR m1 * 365 / 12 - IZR tl) / 365)) in *.
    set (e2 := exp (- dl * (IZR m2 * 365 / 12 - IZR tl) / 365)) in *.
    nra.
Qed.

Lemma Tlim_positive : dl < Dn -> (0 < tl)%Z.
Proof.
  intros Hlt.
  pose proof (Dnom_positive HD HB) as HDn.
  pose proof (Dlimnom_positive Hd) as Hdl.
  pose proof (@base_at_Tyears Qi D B dlim ltac:(lra) HD HB Hd) as Hy.
  assert (1 < Dn / dl).
  { apply Rmult_lt_reg_r with dl; [assumption|].
    replace (Dn / dl * dl) with Dn by (field; lra). lra. }
  assert (0 < B * Dn) by nra.
  assert (0 < ty) by nra.
  pose proof (m_ceil_positive H1). unfold Tlim. lia.
Qed.

Lemma Cum_at_zero : dl < Dn -> Cum Qi D B dlim 0 = 0.
Proof.
  intros Hlt. unfold Cum.
  pose proof (IZR_lt _ _ (Tlim_positive Hlt)) as Hpos.
  destruct (Rlt_dec (IZR (0 * 365) / 12) (IZR tl)) as [_ | N].
  - unfold Cum_hyperbolic.
    replace (1 + B * Dn * 0 / 12) with 1 by field.
    rewrite Rpower_one_base. ring.
  - exfalso. apply N. simpl. lra.
Qed.

End Cum_facts.

(** C5.  For valid parameters with [B <> 1], [cumArps] is non-decreasing in
    the month: for [0 <= m1 <= m2] both calls return and the first value is
    at most the second, on either side of the transition and across it. *)
Theorem cumArps_monotone (Qi D B dlim : R) (m1 m2 : Z) :
  valid Qi D B dlim -> B <> 1 -> (0 <= m1 <= m2)%Z ->
  exists v1 v2,
    cumArps Qi D B dlim m1 = Ok v1
    /\ cumArps Qi D B dlim m2 = Ok v2
    /\ v1 <= v2.
Proof.
  intros (HQ & HD & HB & Hd) HB1 Hm.
  exists (Cum Qi D B dlim m1), (Cum Qi D B dlim m2).
  split; [apply cumArps_value; (assumption || lia)|].
  split; [apply cumArps_value; (assumption || lia)|].
  now apply Cum_monotone.
Qed.

Lemma cumArps_monotone_witness :
  exists v1 v2,
    cumArps 10000 (7/10) (14/10) (1/10) 12 = Ok v1
    /\ cumArps 10000 (7/10) (14/10) (1/10) 480 = Ok v2
    /\ v1 <= v2.
Proof.
  apply (@cumArps_monotone 10000 (7/10) (14/10) (1/10) 12 480);
    [unfold valid; lra | lra | lia].
Defined.

Lemma Rpower_square (x : R) : 0 < x -> Rpower x 2 = x * x.
Proof.
  intros Hx. replace 2 with (1 + 1) by ring.
  now rewrite Rpower_plus, Rpower_1.
Qed.

(** C10.  For valid parameters with [B <> 1] and [Dlim_nom < D_nom] (so that
    the transition day is positive), [cumArps] at month [0] returns exactly
    [0]. *)
Theorem cumArps_at_zero (Qi D B dlim : R) :
  valid Qi D B dlim -> B <> 1 ->
  - ln (1 - dlim) < (Rpower (1 - D) (- B) - 1) / B ->
  cumArps Qi D B dlim 0 = Ok 0.
Proof.
  intros (HQ & HD & HB & Hd) HB1 Hlt.
  rewrite cumArps_value by (assumption || lia).
  f_equal. now apply Cum_at_zero.
Qed.

Lemma cumArps_at_zero_witness :
  cumArps 1 (1/2) 2 (1/2) 0 = Ok 0.
Proof.
  apply (@cumArps_at_zero 1 (1/2) 2 (1/2)); [unfold valid; lra | lra |].
  fold (Dlimnom (1/2)). rewrite Dlimnom_half.
  rewrite Rpower_Ropp, Rpower_square by lra.
  pose proof ln_2_lt_1.
  replace ((/ ((1 - 1/2) * (1 - 1/2)) - 1) / 2) with (3/2) by field.
  lra.
Defined.

(** * Further properties *)

(** ** More on [split] *)

Lemma split_groups_nth (A : Type) (a : list A) (n i : Z) :
  (0 < n)%Z -> (0 <= i < n)%Z ->
  let L := Z.of_nat (length a) in
  exists groups,
    split a n = Ok groups
    /\ nth (Z.to_nat i) groups []
       = py_slice a (cut (L / n) (L mod n) i) (cut (L / n) (L mod n) (i + 1)).
Proof.
  intros Hn Hi L. unfold split, py_divmod.
  destruct (Z.eqb_spec n 0) as [->|_]; [lia|].
  cbn [bind]. eexists; split; [reflexivity|].
  fold L. unfold py_range, cut.
  set (f := fun i : Z => py_slice a _ _).
  rewrite nth_indep with (d' := f 0%Z)
    by (rewrite !length_map, length_seq; lia).
  rewrite map_nth, (map_nth Z.of_nat _ 0%nat), seq_nth by lia.
  cbn [Nat.add]. rewrite Z2Nat.id by lia. reflexivity.
Qed.

(** X1.  Element [j] of group [i] of [split a n], [n > 0], is element
    [i*k + min(i, r) + j] of [a], where [k = len(a) div n] and
    [r = len(a) mod n]: the groups are consecutive runs of [a]. *)
Theorem split_group_elements (A : Type) (a : list A) (n i j : Z) (d : A) :
  (0 < n)%Z -> (0 <= i < n)%Z ->
  let L := Z.of_nat (length a) in
  let k := (L / n)%Z in
  let r := (L mod n)%Z in
  (0 <= j < if (i <? r)%Z then k + 1 else k)%Z ->
  exists groups,
    split a n = Ok groups
    /\ nth (Z.to_nat j) (nth (Z.to_nat i) groups []) d
       = nth (Z.to_nat (i * k + Z.min i r + j)) a d.
Proof.
  intros Hn Hi L k r Hj.
  destruct (@split_groups_nth A a n i Hn Hi) as (groups & E & Hg).
  exists groups. split; [exact E|]. rewrite Hg. fold L k r.
  pose proof (@cut_bounds L n i ltac:(unfold L; lia) Hn ltac:(lia)) as B1.
  pose proof (@cut_bounds L n (i + 1) ltac:(unfold L; lia) Hn ltac:(lia)) as B2.
  pose proof (Z.mod_pos_bound L n Hn) as Hm.
  pose proof (@cut_step k r i ltac:(lia) ltac:(unfold r; lia)) as St.
  fold k r in B1, B2.
  assert (Hk : (0 <= k)%Z) by (apply Z.div_pos; unfold L; lia).
  assert (cut k r i <= cut k r (i + 1))%Z
    by (destruct (i <? r)%Z; lia).
  rewrite py_slice_in_range by (fold L; lia).
  rewrite nth_firstn, nth_skipn.
  destruct (Nat.ltb_spec (Z.to_nat j) (Z.to_nat (cut k r (i + 1) - cut k r i)))
    as [_ | Hge].
  - f_equal. unfold cut. lia.
  - exfalso. rewrite St in Hge. destruct (i <? r)%Z; lia.
Qed.

Lemma split_group_elements_witness :
  exists groups,
    split [10; 20; 30; 40; 50; 60; 70]%Z 3 = Ok groups
    /\ nth (Z.to_nat 1) (nth (Z.to_nat 1) groups []) 0%Z
       = nth (Z.to_nat (1 * (7 / 3) + Z.min 1 (7 mod 3) + 1))
             [10; 20; 30; 40; 50; 60; 70]%Z 0%Z.
Proof.
  apply (@split_group_elements Z [10; 20; 30; 40; 50; 60; 70]%Z 3 1 1 0%Z);
    [lia | lia | vm_compute; split; [discriminate | reflexivity]].
Defined.

(** X2.  Splitting the empty sequence into [n > 0] groups gives [n] empty
    groups. *)
Theorem split_empty (A : Type) (n : Z) :
  (0 < n)%Z -> split (@nil A) n = Ok (repeat [] (Z.to_nat n)).
Proof.
  intros Hn. unfold split, py_divmod.
  destruct (Z.eqb_spec n 0) as [->|_]; [lia|].
  cbn [bind length]. f_equal.
  rewrite map_ext with (g := fun _ => @nil A).
  - rewrite map_const. unfold py_range.
    now rewrite length_map, length_seq.
  - intros i. unfold py_slice. cbn [length].
    now rewrite skipn_nil, firstn_nil.
Qed.

Lemma split_empty_witness :
  split (@nil R) 3 = Ok [[]; []; []].
Proof.
  apply (@split_empty R 3). lia.
Defined.

(** ** Sums of groups *)

Lemma fold_left_Rplus_acc (l : list R) (acc : R) :
  fold_left Rplus l acc = acc + fold_left Rplus l 0.
Proof.
  revert acc; induction l as [|x l IH]; intros acc; simpl.
  - ring.
  - rewrite IH, (IH (0 + x)). ring.
Qed.

Lemma py_sum_cons (x : R) (l : list R) : py_sum (x :: l) = x + py_sum l.
Proof.
  unfold py_sum; simpl. rewrite fold_left_Rplus_acc. ring.
Qed.

Lemma py_sum_app (l1 l2 : list R) : py_sum (l1 ++ l2) = py_sum l1 + py_sum l2.
Proof.
  unfold py_sum. rewrite fold_left_app. apply fold_left_Rplus_acc.
Qed.

Lemma py_sum_concat (gs : list (list R)) :
  py_sum (concat gs) = py_sum (map py_sum gs).
Proof.
  induction gs as [|g gs IH]; simpl; trivial.
  now rewrite py_sum_app, py_sum_cons, IH.
Qed.

(** ** The shape of the daily series *)

Section Rate_facts.
Variables Qi D B dlim : R.
Hypothesis HQ : 0 < Qi.
Hypothesis HD : 0 < D < 1.
Hypothesis HB : 0 < B.
Hypothesis Hd : 0 < dlim < 1.

Local Abbreviation Dn := (Dnom D B).
Local Abbreviation dl := (Dlimnom dlim).
Local Abbreviation ql := (Qlim Qi D B dlim).
Local Abbreviation ty := (Tyears Qi D B dlim).
Local Abbreviation tl := (Tlim Qi D B dlim).

Lemma Qlim_positive : 0 < ql.
Proof.
  unfold Qlim. apply Rmult_lt_0_compat; [assumption | apply Rpower_positive].
Qed.

Lemma day_base_ge_1 (t : Z) : (0 <= t)%Z -> 1 <= 1 + B * Dn * IZR t / 365.
Proof.
  intros Ht. pose proof (Dnom_positive HD HB).
  pose proof (IZR_le 0 t Ht).
  assert (0 <= B * Dn * IZR t)
    by (apply Rmult_le_pos; [apply Rmult_le_pos|]; lra).
  lra.
Qed.

Lemma Rate_positive (t : Z) : (0 <= t)%Z -> 0 < Rate Qi D B dlim t.
Proof.
  intros Ht. unfold Rate. destruct (t <? tl)%Z.
  - apply Rdiv_lt_0_compat; [assumption | apply Rpower_positive].
  - apply Rmult_lt_0_compat; [apply Qlim_positive | apply exp_pos].
Qed.

Lemma Rate_declines_hyperbolic (t t' : Z) :
  (0 <= t <= t')%Z -> (t' < tl)%Z ->
  Rate Qi D B dlim t' <= Rate Qi D B dlim t.
Proof.
  intros [H0 Hle] Hlt. unfold Rate.
  destruct (Z.ltb_spec t tl); [|lia].
  destruct (Z.ltb_spec t' tl); [|lia].
  pose proof (Dnom_positive HD HB).
  pose proof (day_base_ge_1 H0).
  pose proof (IZR_le _ _ Hle).
  assert (0 < B * Dn) by nra.
  assert (0 < 1 / B) by (apply Rdiv_lt_0_compat; lra).
  pose proof (Rle_Rpower_l (1 + B * Dn * IZR t / 365)
                (1 + B * Dn * IZR t' / 365) (1 / B) ltac:(lra) ltac:(nra)).
  unfold Rdiv at 1 4.
  apply Rmult_le_compat_l; [lra|].
  apply Rinv_le_contravar; [apply Rpower_positive | assumption].
Qed.

Lemma Rate_declines_exponential (t t' : Z) :
  (tl <= t)%Z -> (t <= t')%Z ->
  Rate Qi D B dlim t' <= Rate Qi D B dlim t.
Proof.
  intros Hge Hle. unfold Rate.
  destruct (Z.ltb_spec t tl); [lia|].
  destruct (Z.ltb_spec t' tl); [lia|].
  pose proof (Dlimnom_positive Hd). pose proof Qlim_positive.
  pose proof (IZR_le _ _ Hle).
  apply Rmult_le_compat_l; [lra|].
  apply exp_monotone. nra.
Qed.

Lemma Rate_at_Tlim : Rate Qi D B dlim tl = ql.
Proof.
  unfold Rate. rewrite Z.ltb_irrefl.
  replace (- dl * (IZR tl - IZR tl) / 365) with 0 by field.
  rewrite exp_0. ring.
Qed.

(** A day before the computed transition but after the exact one already
    has a rate below [qlim]. *)
Lemma Rate_below_qlim (t : Z) :
  (t < tl)%Z -> ty < IZR t / 365 -> Rate Qi D B dlim t < ql.
Proof.
  intros Hlt Hy. unfold Rate.
  destruct (Z.ltb_spec t tl); [|lia].
  rewrite (@Qlim_alt Qi D B dlim HD HB Hd).
  pose proof (Dnom_positive HD HB). pose proof (Dlimnom_positive Hd).
  pose proof (@base_at_Tyears Qi D B dlim ltac:(lra) HD HB Hd) as Hb.
  assert (0 < Dn / dl) by (apply Rdiv_lt_0_compat; lra).
  assert (0 < B * Dn) by nra.
  assert (0 < 1 / B) by (apply Rdiv_lt_0_compat; lra).
  assert (Dn / dl < 1 + B * Dn * IZR t / 365) by nra.
  pose proof (Rlt_Rpower_l (Dn / dl) (1 + B * Dn * IZR t / 365) (1 / B)
                ltac:(lra) ltac:(lra)).
  unfold Rdiv at 1 4.
  apply Rmult_lt_compat_l; [lra|].
  apply Rinv_lt_contravar; [|assumption].
  apply Rmult_lt_0_compat; apply Rpower_positive.
Qed.

Lemma m_ceil_nonpositive (x : R) : x <= 0 -> (m_ceil x <= 0)%Z.
Proof.
  intros Hx. destruct (m_ceil_spec x) as [H1 _].
  assert (IZR (m_ceil x) < IZR 1) by lra.
  apply lt_IZR in H. lia.
Qed.

Lemma Tyears_closed : ty = (/ dl - / Dn) / B.
Proof.
  unfold Tyears. rewrite rate_ratio_power by lra.
  pose proof (Dnom_positive HD HB). pose proof (Dlimnom_positive Hd).
  field. repeat split; lra.
Qed.

Lemma Tlim_positive_iff : (0 < tl)%Z <-> dl < Dn.
Proof.
  pose proof (Dnom_positive HD HB) as HDn.
  pose proof (Dlimnom_positive Hd) as Hdl.
  pose proof (@base_at_Tyears Qi D B dlim ltac:(lra) HD HB Hd) as Hy.
  assert (HBD : 0 < B * Dn) by nra.
  assert (Hr : Dn / dl * dl = Dn) by (field; lra).
  split.
  - intros Hpos. destruct (Rlt_le_dec dl Dn) as [|Hge]; [assumption|].
    exfalso.
    assert (Dn / dl <= 1) by nra.
    assert (ty <= 0) by nra.
    pose proof (m_ceil_nonpositive H0). unfold Tlim in Hpos. lia.
  - intros Hlt.
    assert (1 < Dn / dl) by nra.
    assert (0 < ty) by nra.
    pose proof (m_ceil_positive H0). unfold Tlim. lia.
Qed.

Lemma Qlim_below_Qi_iff : ql < Qi <-> dl < Dn.
Proof.
  pose proof (Dnom_positive HD HB) as HDn.
  pose proof (Dlimnom_positive Hd) as Hdl.
  pose proof (decline_ratio_positive HD HB Hd) as Hr.
  assert (He : 0 < 1 / B) by (apply Rdiv_lt_0_compat; lra).
  assert (Hm : dl / Dn * Dn = dl) by (field; lra).
  unfold Qlim. split.
  - intros Hlt. destruct (Rlt_le_dec dl Dn) as [|Hge]; [assumption|].
    exfalso.
    assert (1 <= dl / Dn) by nra.
    pose proof (Rle_Rpower_l 1 (dl / Dn) (1 / B) ltac:(lra) ltac:(lra)) as Hp.
    rewrite Rpower_one_base in Hp. nra.
  - intros Hlt.
    assert (dl / Dn < 1) by nra.
    pose proof (Rlt_Rpower_l (dl / Dn) 1 (1 / B) He ltac:(lra)) as Hp.
    rewrite Rpower_one_base in Hp. nra.
Qed.

Lemma Rate_at_zero : dl < Dn -> Rate Qi D B dlim 0 = Qi.
Proof.
  intros Hlt. unfold Rate.
  pose proof (proj2 Tlim_positive_iff Hlt).
  destruct (Z.ltb_spec 0 tl); [|lia].
  replace (1 + B * Dn * 0 / 365) with 1 by field.
  rewrite Rpower_one_base. field.
Qed.

End Rate_facts.

(** [Arps] with its intermediate list of groups. *)
Lemma Arps_groups (Qi D B dlim : R) (years : Z) :
  Qi <> 0 -> 0 < D < 1 -> 0 < B -> 0 < dlim < 1 -> (0 < years)%Z ->
  let q_daily := map (Rate Qi D B dlim) (np_arange 0 (years * 365 + 1)) in
  exists groups,
    split q_daily (years * 12) = Ok groups
    /\ Arps Qi D B dlim years = Ok (q_daily, map py_sum groups).
Proof.
  intros HQ HD HB Hd Hy q_daily.
  rewrite Arps_unfolded by assumption. cbv zeta. fold q_daily.
  destruct (@split_spec R q_daily (years * 12)%Z ltac:(lia)) as (groups & E & _).
  exists groups. split; [exact E|]. now rewrite E.
Qed.

Lemma daily_length (Qi D B dlim : R) (years : Z) :
  (0 <= years)%Z ->
  Z.of_nat (length (map (Rate Qi D B dlim) (np_arange 0 (years * 365 + 1))))
  = (years * 365 + 1)%Z.
Proof.
  intros Hy. rewrite length_map, length_np_arange. lia.
Qed.

(** X3.  For valid parameters and [years > 0] the monthly series adds up to
    the daily series: bucketing drops no day and counts none twice. *)
Theorem Arps_monthly_total (Qi D B dlim : R) (years : Z) :
  valid Qi D B dlim -> (0 < years)%Z ->
  exists q_daily q_monthly,
    Arps Qi D B dlim years = Ok (q_daily, q_monthly)
    /\ py_sum q_monthly = py_sum q_daily.
Proof.
  intros (HQ & HD & HB & Hd) Hy.
  destruct (@Arps_groups Qi D B dlim years ltac:(lra) HD HB Hd Hy)
    as (groups & Hs & E).
  do 2 eexists. split; [exact E|].
  rewrite <- py_sum_concat.
  destruct (@split_spec R (map (Rate Qi D B dlim) (np_arange 0 (years * 365 + 1)))
              (years * 12)%Z ltac:(lia)) as (groups' & Hs' & _ & Hc & _).
  rewrite Hs in Hs'. injection Hs' as <-. now rewrite Hc.
Qed.

Lemma Arps_monthly_total_witness :
  exists q_daily q_monthly,
    Arps 10000 (7/10) (14/10) (1/10) 40 = Ok (q_daily, q_monthly)
    /\ py_sum q_monthly = py_sum q_daily.
Proof.
  apply (@Arps_monthly_total 10000 (7/10) (14/10) (1/10) 40);
    [unfold valid; lra | lia].
Defined.

Lemma month_division (years : Z) :
  (0 < years)%Z ->
  ((years * 365 + 1) / (years * 12) = 30
   /\ (years * 365 + 1) mod (years * 12) = 5 * years + 1)%Z.
Proof.
  intros Hy.
  assert (E : (years * 365 + 1 = years * 12 * 30 + (5 * years + 1))%Z) by lia.
  split.
  - symmetry. apply Z.div_unique with (5 * years + 1)%Z; [lia | exact E].
  - symmetry. apply Z.mod_unique with 30%Z; [lia | exact E].
Qed.

(** X4.  For valid parameters and [years > 0], month [i] of the monthly
    series is the sum of the daily rates of days [lo .. hi - 1], where
    [lo = 30*i + min(i, 5*years + 1)] and
    [hi = 30*(i+1) + min(i+1, 5*years + 1)]: the first [5*years + 1] months
    take 31 days each and the later ones 30. *)
Theorem Arps_month_buckets (Qi D B dlim : R) (years i : Z) :
  valid Qi D B dlim -> (0 < years)%Z -> (0 <= i < years * 12)%Z ->
  let lo := (30 * i + Z.min i (5 * years + 1))%Z in
  let hi := (30 * (i + 1) + Z.min (i + 1) (5 * years + 1))%Z in
  exists q_daily q_monthly,
    Arps Qi D B dlim years = Ok (q_daily, q_monthly)
    /\ nth (Z.to_nat i) q_monthly 0 = py_sum (py_slice q_daily lo hi)
    /\ (0 <= lo)%Z /\ (hi <= years * 365 + 1)%Z
    /\ Z.of_nat (length (py_slice q_daily lo hi)) = (hi - lo)%Z
    /\ (hi - lo)%Z = if (i <? 5 * years + 1)%Z then 31%Z else 30%Z.
Proof.
  intros (HQ & HD & HB & Hd) Hy Hi lo hi.
  destruct (@Arps_groups Qi D B dlim years ltac:(lra) HD HB Hd Hy)
    as (groups & Hs & E).
  set (qd := map (Rate Qi D B dlim) (np_arange 0 (years * 365 + 1))) in *.
  exists qd, (map py_sum groups). split; [exact E|].
  pose proof (@daily_length Qi D B dlim years ltac:(lia)) as HL. fold qd in HL.
  destruct (month_division Hy) as [Hk Hr].
  destruct (@split_groups_nth R qd (years * 12)%Z i ltac:(lia) Hi)
    as (groups' & Hs' & Hn).
  rewrite Hs in Hs'. injection Hs' as <-.
  rewrite HL, Hk, Hr in Hn. unfold cut in Hn.
  replace (i * 30)%Z with (30 * i)%Z in Hn by lia.
  replace ((i + 1) * 30)%Z with (30 * (i + 1))%Z in Hn by lia.
  fold lo hi in Hn.
  assert (Hlo : (0 <= lo)%Z) by (unfold lo; lia).
  assert (Hhi : (hi <= years * 365 + 1)%Z) by (unfold hi; lia).
  assert (Hsz : (hi - lo)%Z = if (i <? 5 * years + 1)%Z then 31%Z else 30%Z)
    by (unfold lo, hi; destruct (Z.ltb_spec i (5 * years + 1)); lia).
  split.
  { change 0 with (py_sum []). rewrite map_nth. now rewrite Hn. }
  split; [exact Hlo|]. split; [exact Hhi|]. split; [|exact Hsz].
  apply length_py_slice; [|rewrite HL; exact Hhi].
  destruct (i <? 5 * years + 1)%Z; lia.
Qed.

Lemma Arps_month_buckets_witness :
  exists q_daily q_monthly,
    Arps 10000 (7/10) (14/10) (1/10) 40 = Ok (q_daily, q_monthly)
    /\ nth (Z.to_nat 201) q_monthly 0 = py_sum (py_slice q_daily 6231 6261)
    /\ (0 <= 6231)%Z /\ (6261 <= 40 * 365 + 1)%Z
    /\ Z.of_nat (length (py_slice q_daily 6231 6261)) = (6261 - 6231)%Z
    /\ (6261 - 6231)%Z = 30%Z.
Proof.
  apply (@Arps_month_buckets 10000 (7/10) (14/10) (1/10) 40 201);
    [unfold valid; lra | lia | lia].
Defined.

(** X5.  For valid parameters and [years < 0] nothing raises: the day range
    is empty and [split] is called with a negative count, so both series
    come back empty. *)
Theorem Arps_negative_years (Qi D B dlim : R) (years : Z) :
  valid Qi D B dlim -> (years < 0)%Z ->
  Arps Qi D B dlim years = Ok ([], []).
Proof.
  intros (HQ & HD & HB & Hd) Hy.
  rewrite Arps_unfolded by lra. cbv zeta.
  assert (E : np_arange 0 (years * 365 + 1) = [])
    by (unfold np_arange; now replace (Z.to_nat (years * 365 + 1 - 0)) with 0%nat by lia).
  rewrite E. cbn [map].
  rewrite split_negative by lia. reflexivity.
Qed.

Lemma Arps_negative_years_witness :
  Arps 10000 (7/10) (14/10) (1/10) (-3) = Ok ([], []).
Proof.
  apply (@Arps_negative_years 10000 (7/10) (14/10) (1/10) (-3));
    [unfold valid; lra | lia].
Defined.

(** X6.  For valid parameters with [Dlim_nom < D_nom] and [years > 0] the
    daily series starts at [Qi]. *)
Theorem Arps_first_rate (Qi D B dlim : R) (years : Z) :
  valid Qi D B dlim -> (0 < years)%Z ->
  - ln (1 - dlim) < (Rpower (1 - D) (- B) - 1) / B ->
  exists q_daily q_monthly,
    Arps Qi D B dlim years = Ok (q_daily, q_monthly)
    /\ nth 0 q_daily 0 = Qi.
Proof.
  intros (HQ & HD & HB & Hd) Hy Hlt.
  destruct (@Arps_returns Qi D B dlim ltac:(lra) HD HB Hd years Hy)
    as (qd & qm & E & -> & _).
  do 2 eexists. split; [exact E|].
  pose proof (@nth_daily Qi D B dlim years 0 ltac:(lia)) as Hn.
  cbn [Z.to_nat] in Hn. rewrite Hn.
  now apply Rate_at_zero.
Qed.

Lemma Arps_first_rate_witness :
  exists q_daily q_monthly,
    Arps 1 (1/2) 1 (1/2) 2 = Ok (q_daily, q_monthly)
    /\ nth 0 q_daily 0 = 1.
Proof.
  apply (@Arps_first_rate 1 (1/2) 1 (1/2) 2); [unfold valid; lra | lia |].
  fold (Dlimnom (1/2)). rewrite Dlimnom_half, Rpower_half_neg_1.
  pose proof ln_2_lt_1. lra.
Defined.

Lemma py_sum_nonnegative (l : list R) :
  (forall x, In x l -> 0 < x) -> 0 <= py_sum l.
Proof.
  induction l as [|x l IH]; intros H.
  - unfold py_sum; simpl; lra.
  - rewrite py_sum_cons.
    pose proof (H x (or_introl eq_refl)).
    pose proof (IH (fun y Hy => H y (or_intror Hy))). lra.
Qed.

Lemma py_sum_positive (l : list R) :
  l <> [] -> (forall x, In x l -> 0 < x) -> 0 < py_sum l.
Proof.
  destruct l as [|x l]; [congruence|]. intros _ H.
  rewrite py_sum_cons.
  pose proof (H x (or_introl eq_refl)).
  pose proof (@py_sum_nonnegative l (fun y Hy => H y (or_intror Hy))). lra.
Qed.

(** X7.  For valid parameters and [years > 0] every daily rate and every
    monthly total is strictly positive. *)
Theorem Arps_rates_positive (Qi D B dlim : R) (years : Z) :
  valid Qi D B dlim -> (0 < years)%Z ->
  exists q_daily q_monthly,
    Arps Qi D B dlim years = Ok (q_daily, q_monthly)
    /\ (forall q, In q q_daily -> 0 < q)
    /\ (forall q, In q q_monthly -> 0 < q).
Proof.
  intros (HQ & HD & HB & Hd) Hy.
  destruct (@Arps_groups Qi D B dlim years ltac:(lra) HD HB Hd Hy)
    as (groups & Hs & E).
  set (qd := map (Rate Qi D B dlim) (np_arange 0 (years * 365 + 1))) in *.
  exists qd, (map py_sum groups). split; [exact E|].
  assert (Hd_pos : forall q, In q qd -> 0 < q).
  { intros q Hq. apply in_map_iff in Hq. destruct Hq as (t & <- & Ht).
    apply In_np_arange in Ht. apply Rate_positive; (assumption || lia). }
  split; [exact Hd_pos|].
  intros q Hq. apply in_map_iff in Hq. destruct Hq as (g & <- & Hg).
  destruct (@split_spec R qd (years * 12)%Z ltac:(lia))
    as (groups' & Hs' & Hlen & Hc & Hsz).
  rewrite Hs in Hs'. injection Hs' as <-.
  apply py_sum_positive.
  - destruct (In_nth _ _ [] Hg) as (i & Hi & Hn).
    specialize (Hsz (Z.of_nat i) ltac:(lia)).
    rewrite Nat2Z.id, Hn in Hsz.
    pose proof (@daily_length Qi D B dlim years ltac:(lia)) as HL.
    fold qd in HL. rewrite HL in Hsz.
    destruct (month_division Hy) as [Hk Hr]. rewrite Hk in Hsz.
    intros ->. cbn [length] in Hsz.
    destruct (Z.of_nat i <? _)%Z; lia.
  - intros x Hx. apply Hd_pos. rewrite <- Hc.
    apply in_concat. exists g. split; assumption.
Qed.

Lemma Arps_rates_positive_witness :
  exists q_daily q_monthly,
    Arps 10000 (7/10) (14/10) (1/10) 40 = Ok (q_daily, q_monthly)
    /\ (forall q, In q q_daily -> 0 < q)
    /\ (forall q, In q q_monthly -> 0 < q).
Proof.
  apply (@Arps_rates_positive 10000 (7/10) (14/10) (1/10) 40);
    [unfold valid; lra | lia].
Defined.

Lemma transition_is_closed_form (Qi D B dlim : R) (tr : transition) :
  Qi <> 0 -> 0 < D < 1 -> 0 < B -> 0 < dlim < 1 ->
  Arps_transition Qi D B dlim = Ok tr ->
  tr = Transition (Dnom D B) (Dlimnom dlim) (Qlim Qi D B dlim) (Tlim Qi D B dlim).
Proof.
  intros HQ HD HB Hd E.
  rewrite Arps_transition_value in E by assumption.
  now injection E as <-.
Qed.

(** X8.  For valid parameters and [years > 0] the daily series never rises
    from one day to a later one as long as both lie before the transition
    day, or both on or after it. *)
Theorem Arps_rates_decline_within_regime
  (Qi D B dlim : R) (years : Z) (tr : transition) :
  valid Qi D B dlim -> (0 < years)%Z ->
  Arps_transition Qi D B dlim = Ok tr ->
  exists q_daily q_monthly,
    Arps Qi D B dlim years = Ok (q_daily, q_monthly)
    /\ forall t t', (0 <= t <= t')%Z -> (t' <= years * 365)%Z ->
         (t' < tlim tr)%Z \/ (tlim tr <= t)%Z ->
         nth (Z.to_nat t') q_daily 0 <= nth (Z.to_nat t) q_daily 0.
Proof.
  intros (HQ & HD & HB & Hd) Hy Htr.
  apply transition_is_closed_form in Htr; [|lra|assumption..]. subst tr.
  cbn [tlim].
  destruct (@Arps_returns Qi D B dlim ltac:(lra) HD HB Hd years Hy)
    as (qd & qm & E & -> & _).
  do 2 eexists. split; [exact E|].
  intros t t' Ht Ht' Hcase.
  rewrite !nth_daily by lia.
  destruct Hcase as [Hlt | Hge].
  - now apply Rate_declines_hyperbolic.
  - apply Rate_declines_exponential; (assumption || lia).
Qed.

Lemma Arps_transition_example :
  Arps_transition 1 (1/2) 1 (1/2) = Ok (Transition 1 (ln 2) (ln 2) 365).
Proof.
  rewrite Arps_transition_value by lra.
  now rewrite Dnom_half_1, Dlimnom_half, Qlim_example, Tlim_example.
Qed.

Lemma Arps_rates_decline_within_regime_witness :
  exists q_daily q_monthly,
    Arps 1 (1/2) 1 (1/2) 2 = Ok (q_daily, q_monthly)
    /\ forall t t', (0 <= t <= t')%Z -> (t' <= 2 * 365)%Z ->
         (t' < 365)%Z \/ (365 <= t)%Z ->
         nth (Z.to_nat t') q_daily 0 <= nth (Z.to_nat t) q_daily 0.
Proof.
  apply (@Arps_rates_decline_within_regime 1 (1/2) 1 (1/2) 2
           (Transition 1 (ln 2) (ln 2) 365));
    [unfold valid; lra | lia | apply Arps_transition_example].
Defined.

(** X9.  The daily series can rise at the transition.  For valid
    parameters, if the transition day [tlim] lies in [1 .. years*365] and
    day [tlim - 1] is already past the exact transition time
    [((Qi/qlim)^B - 1) / (B*D_nom)] years, then the rate of day [tlim],
    which is [qlim], is strictly above the rate of day [tlim - 1]. *)
Theorem Arps_rate_rises_at_transition
  (Qi D B dlim : R) (years : Z) (tr : transition) :
  valid Qi D B dlim ->
  Arps_transition Qi D B dlim = Ok tr ->
  (1 <= tlim tr <= years * 365)%Z ->
  (Rpower (Qi / qlim tr) B - 1) / (B * D_nom tr) < IZR (tlim tr - 1) / 365 ->
  exists q_daily q_monthly,
    Arps Qi D B dlim years = Ok (q_daily, q_monthly)
    /\ nth (Z.to_nat (tlim tr)) q_daily 0 = qlim tr
    /\ nth (Z.to_nat (tlim tr - 1)) q_daily 0 < nth (Z.to_nat (tlim tr)) q_daily 0.
Proof.
  intros (HQ & HD & HB & Hd) Htr Hrange Hpast.
  apply transition_is_closed_form in Htr; [|lra|assumption..]. subst tr.
  cbn [tlim qlim D_nom] in *. fold (Tyears Qi D B dlim) in Hpast.
  destruct (@Arps_returns Qi D B dlim ltac:(lra) HD HB Hd years ltac:(lia))
    as (qd & qm & E & -> & _).
  do 2 eexists. split; [exact E|].
  rewrite !nth_daily by lia.
  rewrite Rate_at_Tlim by assumption.
  split; [reflexivity|].
  apply Rate_below_qlim; (assumption || lia).
Qed.

Lemma ln_2_gt_11_20 : 11/20 < ln 2.
Proof.
  apply exp_lt_inv. rewrite exp_ln by lra.
  replace (11/20) with (11/40 + 11/40) by field.
  rewrite exp_plus.
  pose proof (exp_ineq1_le (- (11/40))) as Hlow.
  rewrite exp_Ropp in Hlow.
  pose proof (exp_pos (11/40)) as Hpos.
  assert (Hinv : / exp (11/40) * exp (11/40) = 1) by (apply Rinv_l; lra).
  assert (exp (11/40) <= 40/29) by nra.
  nra.
Qed.

Lemma Arps_rate_rises_at_transition_witness :
  exists q_daily q_monthly,
    Arps 1 (1/2) 1 (1/2) 2 = Ok (q_daily, q_monthly)
    /\ nth (Z.to_nat 365) q_daily 0 = ln 2
    /\ nth (Z.to_nat (365 - 1)) q_daily 0 < nth (Z.to_nat 365) q_daily 0.
Proof.
  apply (@Arps_rate_rises_at_transition 1 (1/2) 1 (1/2) 2
           (Transition 1 (ln 2) (ln 2) 365));
    [unfold valid; lra | apply Arps_transition_example | cbn [tlim]; lia |].
  cbn [tlim qlim D_nom].
  pose proof ln_2_gt_11_20 as Hln.
  assert (0 < / ln 2) by (apply Rinv_0_lt_compat; lra).
  assert (E : / ln 2 * ln 2 = 1) by (apply Rinv_l; lra).
  replace (1 / ln 2) with (/ ln 2) by (field; lra).
  rewrite Rpower_1 by assumption.
  replace (IZR (365 - 1) / 365) with (364 / 365) by (simpl; field).
  assert (/ ln 2 < 20/11) by nra.
  lra.
Defined.

(** X10.  For valid parameters the initial rate cancels out of the
    transition day: [tlim = ceil((1/Dlim_nom - 1/D_nom) / B) * 365].  Two
    calls that differ in [Qi] only get the same day and nominal declines,
    and rates at the transition in the proportion of the two [Qi]. *)
Theorem transition_independent_of_Qi (Qi Qi' D B dlim : R) :
  valid Qi D B dlim -> 0 < Qi' ->
  exists tr tr',
    Arps_transition Qi D B dlim = Ok tr
    /\ Arps_transition Qi' D B dlim = Ok tr'
    /\ tlim tr = (m_ceil ((/ dlim_nom tr - / D_nom tr) / B) * 365)%Z
    /\ tlim tr' = tlim tr
    /\ D_nom tr' = D_nom tr
    /\ dlim_nom tr' = dlim_nom tr
    /\ qlim tr' * Qi = qlim tr * Qi'.
Proof.
  intros (HQ & HD & HB & Hd) HQ'.
  do 2 eexists.
  split; [apply Arps_transition_value; lra|].
  split; [apply Arps_transition_value; lra|].
  cbn [tlim D_nom dlim_nom qlim]. unfold Tlim.
  rewrite !Tyears_closed by assumption.
  repeat split. unfold Qlim. ring.
Qed.

Lemma transition_independent_of_Qi_witness :
  exists tr tr',
    Arps_transition 10000 (7/10) (14/10) (1/10) = Ok tr
    /\ Arps_transition 250 (7/10) (14/10) (1/10) = Ok tr'
    /\ tlim tr = (m_ceil ((/ dlim_nom tr - / D_nom tr) / (14/10)) * 365)%Z
    /\ tlim tr' = tlim tr
    /\ D_nom tr' = D_nom tr
    /\ dlim_nom tr' = dlim_nom tr
    /\ qlim tr' * 10000 = qlim tr * 250.
Proof.
  apply (@transition_independent_of_Qi 10000 250 (7/10) (14/10) (1/10));
    [unfold valid; lra | lra].
Defined.

(** X11.  For valid parameters the transition day is positive exactly when
    [Dlim_nom < D_nom], and exactly then the rate at the transition is below
    the initial rate; otherwise [tlim <= 0] and every day of the series is
    on the exponential branch. *)
Theorem transition_ahead_iff (Qi D B dlim : R) :
  valid Qi D B dlim ->
  exists tr,
    Arps_transition Qi D B dlim = Ok tr
    /\ ((0 < tlim tr)%Z <-> dlim_nom tr < D_nom tr)
    /\ (qlim tr < Qi <-> dlim_nom tr < D_nom tr).
Proof.
  intros (HQ & HD & HB & Hd).
  eexists. split; [apply Arps_transition_value; lra|].
  cbn [tlim D_nom dlim_nom qlim].
  split; [now apply Tlim_positive_iff | now apply Qlim_below_Qi_iff].
Qed.

Lemma transition_ahead_iff_witness :
  exists tr,
    Arps_transition 1 (1/2) 1 (1/2) = Ok tr
    /\ ((0 < tlim tr)%Z <-> dlim_nom tr < D_nom tr)
    /\ (qlim tr < 1 <-> dlim_nom tr < D_nom tr).
Proof.
  apply (@transition_ahead_iff 1 (1/2) 1 (1/2)). unfold valid; lra.
Defined.

(** ** More on [cumArps] *)

Lemma cumArps_transition_is_closed_form (Qi D B dlim : R) (tr : transition) :
  Qi <> 0 -> 0 < D < 1 -> 0 < B -> 0 < dlim < 1 ->
  cumArps_transition Qi D B dlim = Ok tr ->
  tr = Transition (Dnom D B) (Dlimnom dlim) (Qlim Qi D B dlim) (Tlim Qi D B dlim).
Proof.
  intros HQ HD HB Hd E.
  rewrite cumArps_transition_value in E by assumption.
  now injection E as <-.
Qed.

(** X12.  With [B = 1] and otherwise valid parameters [cumArps] raises
    [ZeroDivisionError] for every month: line 58 divides by
    [(1 - B) * D_nom = 0] before the branch is chosen. *)
Theorem cumArps_harmonic_raises (Qi D dlim : R) (month : Z) :
  valid Qi D 1 dlim ->
  cumArps Qi D 1 dlim month = Raise ZeroDivisionError.
Proof.
  intros (HQ & HD & HB & Hd). unfold cumArps.
  rewrite cumArps_transition_value by lra.
  cbn [bind D_nom tlim]. unfold cum_hyperbolic.
  replace ((1 - 1) * Dnom D 1) with 0 by ring.
  now rewrite py_div_zero.
Qed.

Lemma cumArps_harmonic_raises_witness :
  cumArps 10000 (7/10) 1 (1/10) 480 = Raise ZeroDivisionError.
Proof.
  apply (@cumArps_harmonic_raises 10000 (7/10) (1/10) 480).
  unfold valid; lra.
Defined.

Section Cum_more.
Variables Qi D B dlim : R.
Hypothesis HQ : 0 < Qi.
Hypothesis HD : 0 < D < 1.
Hypothesis HB : 0 < B.
Hypothesis HB1 : B <> 1.
Hypothesis Hd : 0 < dlim < 1.

Local Abbreviation Dn := (Dnom D B).
Local Abbreviation dl := (Dlimnom dlim).
Local Abbreviation ql := (Qlim Qi D B dlim).
Local Abbreviation ty := (Tyears Qi D B dlim).
Local Abbreviation tl := (Tlim Qi D B dlim).

Lemma Cum_upper (month : Z) :
  (0 <= month)%Z ->
  Cum Qi D B dlim month
  < Cum_hyperbolic Qi D B (1 + B * Dn * IZR tl / 365) + ql / dl * 365.
Proof.
  intros Hm. unfold Cum.
  pose proof (Dnom_positive HD HB) as HDn.
  pose proof (Dlimnom_positive Hd) as Hdl.
  pose proof (@Qlim_positive Qi D B dlim HQ) as Hql.
  assert (Hc : 0 < ql / dl * 365)
    by (apply Rmult_lt_0_compat; [apply Rdiv_lt_0_compat|]; lra).
  rewrite mult_IZR.
  destruct (Rlt_dec (IZR month * 365 / 12) (IZR tl)) as [L | G].
  - pose proof (month_base_positive HD HB Hm) as Hb.
    assert (0 < B * Dn) by nra.
    pose proof (@Cum_hyperbolic_monotone Qi D B HQ HD HB HB1
                  (1 + B * Dn * IZR month / 12)
                  (1 + B * Dn * IZR tl / 365) ltac:(nra)).
    lra.
  - pose proof (exp_pos (- dl * (IZR month * 365 / 12 - IZR tl) / 365)).
    set (ex := exp _) in *. nra.
Qed.

Lemma Cum_at_switch :
  let m := (12 * m_ceil ty)%Z in
  Cum Qi D B dlim m = Cum_hyperbolic Qi D B (1 + B * Dn * IZR m / 12).
Proof.
  intros m. unfold Cum.
  assert (E1 : IZR (m * 365) / 12 = IZR tl)
    by (unfold m, Tlim; rewrite !mult_IZR; field).
  assert (E2 : 1 + B * Dn * IZR m / 12 = 1 + B * Dn * IZR tl / 365)
    by (unfold m, Tlim; rewrite !mult_IZR; field).
  rewrite E1, E2.
  destruct (Rlt_dec (IZR tl) (IZR tl)) as [L | _]; [lra|].
  replace (- dl * (IZR tl - IZR tl) / 365) with 0 by field.
  rewrite exp_0. ring.
Qed.

Lemma Cum_nonnegative (month : Z) :
  dl < Dn -> (0 <= month)%Z -> 0 <= Cum Qi D B dlim month.
Proof.
  intros Hlt Hm.
  rewrite <- (@Cum_at_zero Qi D B dlim HQ HD HB HB1 Hd Hlt).
  apply Cum_monotone; (assumption || lia).
Qed.

End Cum_more.

(** X13.  For valid parameters with [B <> 1] and a transition day
    [tlim >= 0], the two formulas of [cumArps] agree in the month of the
    switch, [12 * (tlim / 365)]: what the exponential branch returns there is
    the hyperbolic closed form of line 61 evaluated at that month. *)
Theorem cumArps_continuous_at_switch (Qi D B dlim : R) (tr : transition) :
  valid Qi D B dlim -> B <> 1 ->
  cumArps_transition Qi D B dlim = Ok tr ->
  (0 <= tlim tr)%Z ->
  let month := (12 * (tlim tr / 365))%Z in
  exists v,
    cumArps Qi D B dlim month = Ok v
    /\ ~ IZR (month * 365) / 12 < IZR (tlim tr)
    /\ cum_hyperbolic Qi B (D_nom tr) (1 + B * D_nom tr * IZR month / 12) = Ok v.
Proof.
  intros (HQ & HD & HB & Hd) HB1 Htr Hpos.
  apply cumArps_transition_is_closed_form in Htr; [|lra|assumption..]. subst tr.
  cbn [tlim D_nom] in *. unfold Tlim in *.
  rewrite Z.div_mul by lia.
  assert (Hc : (0 <= m_ceil (Tyears Qi D B dlim))%Z) by lia.
  cbv zeta.
  exists (Cum Qi D B dlim (12 * m_ceil (Tyears Qi D B dlim))).
  split; [apply cumArps_value; (assumption || lia)|].
  split; [rewrite !mult_IZR; lra|].
  rewrite (@Cum_at_switch Qi D B dlim).
  apply cum_hyperbolic_value; try assumption.
  pose proof (@month_base_positive D B HD HB
                (12 * m_ceil (Tyears Qi D B dlim)) ltac:(lia)).
  lra.
Qed.

Lemma cumArps_transition_example :
  cumArps_transition 1 (1/2) 2 (1/2) = Ok (Transition (Dnom (1/2) 2) (ln 2)
      (Qlim 1 (1/2) 2 (1/2)) (Tlim 1 (1/2) 2 (1/2))).
Proof.
  rewrite cumArps_transition_value by lra. now rewrite Dlimnom_half.
Qed.

Lemma Dnom_half_2 : Dnom (1/2) 2 = 3/2.
Proof.
  unfold Dnom. rewrite Rpower_Ropp, Rpower_square by lra. field.
Qed.

Lemma cumArps_continuous_at_switch_witness :
  let tr := Transition (Dnom (1/2) 2) (ln 2)
              (Qlim 1 (1/2) 2 (1/2)) (Tlim 1 (1/2) 2 (1/2)) in
  let month := (12 * (tlim tr / 365))%Z in
  exists v,
    cumArps 1 (1/2) 2 (1/2) month = Ok v
    /\ ~ IZR (month * 365) / 12 < IZR (tlim tr)
    /\ cum_hyperbolic 1 2 (D_nom tr) (1 + 2 * D_nom tr * IZR month / 12) = Ok v.
Proof.
  apply (@cumArps_continuous_at_switch 1 (1/2) 2 (1/2));
    [unfold valid; lra | lra | apply cumArps_transition_example |].
  cbn [tlim].
  assert (0 < Tlim 1 (1/2) 2 (1/2))%Z; [|lia].
  apply Tlim_positive_iff; try lra.
  rewrite Dlimnom_half, Dnom_half_2. pose proof ln_2_lt_1. lra.
Defined.

(** X14.  For valid parameters with [B <> 1] the cumulative volume stays
    below a finite limit for every month [>= 0]: the volume accrued up to
    the transition ([q_switch], line 58) plus [qlim / Dlim_nom * 365]. *)
Theorem cumArps_bounded (Qi D B dlim : R) (tr : transition) (month : Z) :
  valid Qi D B dlim -> B <> 1 ->
  cumArps_transition Qi D B dlim = Ok tr ->
  (0 <= month)%Z ->
  exists q_switch v,
    cum_hyperbolic Qi B (D_nom tr) (1 + B * D_nom tr * IZR (tlim tr) / 365)
      = Ok q_switch
    /\ cumArps Qi D B dlim month = Ok v
    /\ v < q_switch + qlim tr / dlim_nom tr * 365.
Proof.
  intros (HQ & HD & HB & Hd) HB1 Htr Hm.
  apply cumArps_transition_is_closed_form in Htr; [|lra|assumption..]. subst tr.
  cbn [tlim D_nom qlim dlim_nom].
  do 2 eexists.
  split; [apply cum_hyperbolic_value; try assumption;
          apply base_at_Tlim_positive; lra|].
  split; [apply cumArps_value; assumption|].
  now apply Cum_upper.
Qed.

Lemma cumArps_bounded_witness :
  exists q_switch v,
    cum_hyperbolic 1 2 (Dnom (1/2) 2)
      (1 + 2 * Dnom (1/2) 2 * IZR (Tlim 1 (1/2) 2 (1/2)) / 365) = Ok q_switch
    /\ cumArps 1 (1/2) 2 (1/2) 480 = Ok v
    /\ v < q_switch + Qlim 1 (1/2) 2 (1/2) / ln 2 * 365.
Proof.
  apply (@cumArps_bounded 1 (1/2) 2 (1/2)
           (Transition (Dnom (1/2) 2) (ln 2)
              (Qlim 1 (1/2) 2 (1/2)) (Tlim 1 (1/2) 2 (1/2))) 480);
    [unfold valid; lra | lra | apply cumArps_transition_example | lia].
Defined.

(** X15.  For valid parameters with [B <> 1] and [Dlim_nom < D_nom] the
    cumulative volume is never negative for a month [>= 0]. *)
Theorem cumArps_nonnegative (Qi D B dlim : R) (month : Z) :
  valid Qi D B dlim -> B <> 1 ->
  - ln (1 - dlim) < (Rpower (1 - D) (- B) - 1) / B ->
  (0 <= month)%Z ->
  exists v, cumArps Qi D B dlim month = Ok v /\ 0 <= v.
Proof.
  intros (HQ & HD & HB & Hd) HB1 Hlt Hm.
  exists (Cum Qi D B dlim month).
  split; [apply cumArps_value; assumption|].
  now apply Cum_nonnegative.
Qed.

Lemma cumArps_nonnegative_witness :
  exists v, cumArps 1 (1/2) 2 (1/2) 480 = Ok v /\ 0 <= v.
Proof.
  apply (@cumArps_nonnegative 1 (1/2) 2 (1/2) 480);
    [unfold valid; lra | lra | | lia].
  fold (Dlimnom (1/2)) (Dnom (1/2) 2).
  rewrite Dlimnom_half, Dnom_half_2. pose proof ln_2_lt_1. lra.
Defined.

(** ** [cumArps] outside the valid domain *)

Lemma cumArps_transition_raises (Qi D B dlim : R) (month : Z) (e : exn) :
  cumArps_transition Qi D B dlim = Raise e -> cumArps Qi D B dlim month = Raise e.
Proof. unfold cumArps; intros ->; reflexivity. Qed.

Lemma cumArps_transition_D_one (Qi B dlim : R) :
  0 < B -> cumArps_transition Qi 1 B dlim = Raise ZeroDivisionError.
Proof.
  intros HB. unfold cumArps_transition, py_pow.
  destruct (Rlt_dec 0 (1 - 1)); [lra|].
  destruct (Req_dec_T (-1 * B) 0); [lra|].
  destruct (Req_dec_T (1 - 1) 0); [|lra].
  destruct (Rlt_dec (-1 * B) 0); [reflexivity | lra].
Qed.

Lemma cumArps_transition_B_zero (Qi D dlim : R) :
  cumArps_transition Qi D 0 dlim = Raise ZeroDivisionError.
Proof.
  unfold cumArps_transition.
  assert (E : exists p, py_pow (1 - D) (-1 * 0) = Ok p).
  { unfold py_pow. destruct (Rlt_dec 0 (1 - D)); [eauto|].
    destruct (Req_dec_T (-1 * 0) 0); [eauto | lra]. }
  destruct E as [p ->]. cbn [bind]. now rewrite py_div_zero.
Qed.

Lemma cumArps_transition_dlim_large (Qi D B dlim : R) :
  0 < D < 1 -> 0 < B -> 1 <= dlim ->
  cumArps_transition Qi D B dlim = Raise ValueError.
Proof.
  intros HD HB Hd. unfold cumArps_transition.
  rewrite py_pow_positive by lra. cbn [bind].
  rewrite py_div_nonzero by lra. cbn [bind].
  now rewrite m_log_nonpositive by lra.
Qed.

Lemma cumArps_transition_Qi_zero (D B dlim : R) :
  0 < D < 1 -> 0 < B -> 0 < dlim < 1 ->
  cumArps_transition 0 D B dlim = Raise ZeroDivisionError.
Proof.
  intros HD HB Hd. unfold cumArps_transition.
  rewrite py_pow_positive by lra. cbn [bind].
  replace (-1 * B) with (- B) by ring.
  rewrite py_div_nonzero by lra. cbn [bind]. fold (Dnom D B).
  rewrite m_log_positive by lra. cbn [bind].
  replace (-1 * ln (1 - dlim)) with (Dlimnom dlim) by (unfold Dlimnom; ring).
  pose proof (Dnom_positive HD HB).
  pose proof (decline_ratio_positive HD HB Hd).
  rewrite py_div_nonzero by lra. cbn [bind].
  rewrite py_div_nonzero by lra. cbn [bind].
  rewrite py_pow_positive by assumption. cbn [bind].
  rewrite Rmult_0_l, py_div_zero. reflexivity.
Qed.

(** X16.  [cumArps] checks nothing itself either.  With [D = 1] (and
    [B > 0]), with [B = 0], with [Dlim >= 1] (and [0 < D < 1], [B > 0]) and
    with [Qi = 0] (the other parameters valid) it fails for every month
    while computing the transition point, with the exception [Arps] raises on
    the same parameters: [ValueError] for [Dlim >= 1], [ZeroDivisionError]
    otherwise. *)
Theorem cumArps_invalid_parameters (Qi D B dlim : R) (month years : Z) :
  (D = 1 /\ 0 < B)
  \/ B = 0
  \/ (0 < D < 1 /\ 0 < B /\ 1 <= dlim)
  \/ (Qi = 0 /\ 0 < D < 1 /\ 0 < B /\ 0 < dlim < 1) ->
  exists e,
    cumArps Qi D B dlim month = Raise e
    /\ Arps Qi D B dlim years = Raise e
    /\ (e = ValueError <-> 0 < D < 1 /\ 0 < B /\ 1 <= dlim).
Proof.
  intros [(-> & HB) | [-> | [(HD & HB & Hd) | (-> & HD & HB & Hd)]]].
  - exists ZeroDivisionError.
    split; [apply cumArps_transition_raises; now apply cumArps_transition_D_one|].
    split; [apply Arps_transition_raises; now apply Arps_transition_D_one|].
    split; [discriminate | lra].
  - exists ZeroDivisionError.
    split; [apply cumArps_transition_raises; apply cumArps_transition_B_zero|].
    split; [apply Arps_transition_raises; apply Arps_transition_B_zero|].
    split; [discriminate | lra].
  - exists ValueError.
    split; [apply cumArps_transition_raises; now apply cumArps_transition_dlim_large|].
    split; [apply Arps_transition_raises; now apply Arps_transition_dlim_large|].
    split; [now intros _ | reflexivity].
  - exists ZeroDivisionError.
    split; [apply cumArps_transition_raises; now apply cumArps_transition_Qi_zero|].
    split; [apply Arps_transition_raises; now apply Arps_transition_Qi_zero|].
    split; [discriminate | lra].
Qed.

Lemma cumArps_invalid_parameters_witness :
  exists e,
    cumArps 10000 (7/10) (14/10) 1 480 = Raise e
    /\ Arps 10000 (7/10) (14/10) 1 40 = Raise e
    /\ (e = ValueError <-> 0 < 7/10 < 1 /\ 0 < 14/10 /\ 1 <= 1).
Proof.
  apply (@cumArps_invalid_parameters 10000 (7/10) (14/10) 1 480 40).
  right. right. left. lra.
Defined.

(** ** The charted series *)

Lemma length_cumsum_from (acc : R) (l : list R) :
  length (cumsum_from acc l) = length l.
Proof.
  revert acc; induction l as [|x l IH]; intros acc; simpl; [|rewrite IH];
    reflexivity.
Qed.

Lemma length_np_cumsum (l : list R) : length (np_cumsum l) = length l.
Proof.
  destruct l as [|x l]; simpl; [|rewrite length_cumsum_from]; reflexivity.
Qed.

Lemma nth_cumsum_from (acc : R) (l : list R) (k : nat) :
  (k < length l)%nat ->
  nth k (cumsum_from acc l) 0 = acc + py_sum (firstn (S k) l).
Proof.
  revert acc k; induction l as [|x l IH]; intros acc k Hk; simpl in Hk; [lia|].
  destruct k as [|k].
  - simpl. unfold py_sum; simpl. ring.
  - cbn [cumsum_from nth]. rewrite IH by lia.
    change (firstn (S (S k)) (x :: l)) with (x :: firstn (S k) l).
    rewrite py_sum_cons. ring.
Qed.

Lemma nth_np_cumsum (l : list R) (k : nat) :
  (k < length l)%nat ->
  nth k (np_cumsum l) 0 = py_sum (firstn (S k) l).
Proof.
  destruct l as [|x l]; intros Hk; simpl in Hk; [lia|].
  destruct k as [|k].
  - simpl. unfold py_sum; simpl. ring.
  - cbn [np_cumsum nth]. rewrite nth_cumsum_from by lia.
    change (firstn (S (S k)) (x :: l)) with (x :: firstn (S k) l).
    now rewrite py_sum_cons.
Qed.

(** X17.  The three series [visualize] plots have the same length, so both
    [plot] calls get x and y values that match; point [k] of the x values
    is month [k], and point [k] of the cumulative curve is the sum of the
    monthly values [0 .. k]. *)
Theorem visualize_series (q_monthly : list R) (k : nat) :
  (k < length q_monthly)%nat ->
  let c := visualize_data q_monthly in
  length (months c) = length (rate_curve c)
  /\ length (cumulative_curve c) = length (rate_curve c)
  /\ nth k (months c) 0%Z = Z.of_nat k
  /\ nth k (rate_curve c) 0 = nth k q_monthly 0
  /\ nth k (cumulative_curve c) 0 = py_sum (firstn (S k) q_monthly).
Proof.
  intros Hk c. unfold c, visualize_data.
  cbn [months rate_curve cumulative_curve].
  split; [unfold py_range; rewrite length_map, length_seq; lia|].
  split; [apply length_np_cumsum|].
  split.
  { unfold py_range.
    rewrite nth_indep with (d' := Z.of_nat 0)
      by (rewrite length_map, length_seq; lia).
    rewrite map_nth, seq_nth by lia. reflexivity. }
  split; [reflexivity|].
  now apply nth_np_cumsum.
Qed.

Lemma visualize_series_witness :
  let c := visualize_data [5; 3; 2] in
  length (months c) = length (rate_curve c)
  /\ length (cumulative_curve c) = length (rate_curve c)
  /\ nth 2 (months c) 0%Z = Z.of_nat 2
  /\ nth 2 (rate_curve c) 0 = nth 2 [5; 3; 2] 0
  /\ nth 2 (cumulative_curve c) 0 = py_sum (firstn 3 [5; 3; 2]).
Proof.
  apply (@visualize_series [5; 3; 2] 2). simpl. lia.
Defined.

Lemma firstn_succ_nth (l : list R) (k : nat) :
  (k < length l)%nat -> firstn (S k) l = firstn k l ++ [nth k l 0].
Proof.
  revert k; induction l as [|x l IH]; intros k Hk; simpl in Hk; [lia|].
  destruct k as [|k]; [reflexivity|].
  change (firstn (S (S k)) (x :: l)) with (x :: firstn (S k) l).
  rewrite IH by lia. reflexivity.
Qed.

(** What the monthly series of a valid call looks like. *)
Lemma Arps_rates_positive_aux (Qi D B dlim : R) (years : Z) :
  valid Qi D B dlim -> (0 < years)%Z ->
  exists q_daily q_monthly,
    Arps Qi D B dlim years = Ok (q_daily, q_monthly)
    /\ Z.of_nat (length q_monthly) = (years * 12)%Z
    /\ (forall q, In q q_monthly -> 0 < q)
    /\ py_sum q_monthly = py_sum q_daily.
Proof.
  intros (HQ & HD & HB & Hd) Hy.
  destruct (@Arps_groups Qi D B dlim years ltac:(lra) HD HB Hd Hy)
    as (groups & Hs & E).
  set (qd := map (Rate Qi D B dlim) (np_arange 0 (years * 365 + 1))) in *.
  exists qd, (map py_sum groups). split; [exact E|].
  destruct (@split_spec R qd (years * 12)%Z ltac:(lia))
    as (groups' & Hs' & Hlen & Hc & Hsz).
  rewrite Hs in Hs'. injection Hs' as <-.
  split; [now rewrite length_map|].
  split; [|now rewrite <- py_sum_concat, Hc].
  assert (Hd_pos : forall q, In q qd -> 0 < q).
  { intros q Hq. apply in_map_iff in Hq. destruct Hq as (t & <- & Ht).
    apply In_np_arange in Ht. apply Rate_positive; (assumption || lia). }
  intros q Hq. apply in_map_iff in Hq. destruct Hq as (g & <- & Hg).
  apply py_sum_positive.
  - destruct (In_nth _ _ [] Hg) as (i & Hi & Hn).
    specialize (Hsz (Z.of_nat i) ltac:(lia)).
    rewrite Nat2Z.id, Hn in Hsz.
    pose proof (@daily_length Qi D B dlim years ltac:(lia)) as HL.
    fold qd in HL. rewrite HL in Hsz.
    destruct (month_division Hy) as [Hk Hr]. rewrite Hk in Hsz.
    intros ->. cbn [length] in Hsz.
    destruct (Z.of_nat i <? _)%Z; lia.
  - intros x Hx. apply Hd_pos. rewrite <- Hc.
    apply in_concat. exists g. split; assumption.
Qed.

(** X18.  The program's pipeline (lines 107 and 110): for valid parameters
    and [years > 0], the cumulative curve drawn from the monthly series of
    [Arps] has [years * 12] points, never falls, and ends at the sum of the
    daily series. *)
Theorem visualize_Arps (Qi D B dlim : R) (years : Z) :
  valid Qi D B dlim -> (0 < years)%Z ->
  exists q_daily q_monthly,
    Arps Qi D B dlim years = Ok (q_daily, q_monthly)
    /\ let curve := cumulative_curve (visualize_data q_monthly) in
       Z.of_nat (length curve) = (years * 12)%Z
       /\ (forall k, (S k < length curve)%nat ->
             nth k curve 0 <= nth (S k) curve 0)
       /\ nth (length curve - 1) curve 0 = py_sum q_daily.
Proof.
  intros Hv Hy.
  destruct (@Arps_rates_positive_aux Qi D B dlim years Hv Hy)
    as (qd & qm & E & Hlen & Hpos & Hsum).
  exists qd, qm. split; [exact E|].
  cbn [visualize_data cumulative_curve]. cbv zeta.
  rewrite length_np_cumsum.
  split; [exact Hlen|]. split.
  - intros k Hk.
    rewrite !nth_np_cumsum by lia.
    rewrite (@firstn_succ_nth qm (S k)) by lia.
    rewrite py_sum_app, (py_sum_cons (nth (S k) qm 0) []).
    change (py_sum []) with 0.
    assert (0 < nth (S k) qm 0) by (apply Hpos, nth_In; lia).
    lra.
  - rewrite nth_np_cumsum by lia.
    replace (S (length qm - 1)) with (length qm) by lia.
    now rewrite firstn_all.
Qed.

Lemma visualize_Arps_witness :
  exists q_daily q_monthly,
    Arps 10000 (7/10) (14/10) (1/10) 40 = Ok (q_daily, q_monthly)
    /\ let curve := cumulative_curve (visualize_data q_monthly) in
       Z.of_nat (length curve) = 480%Z
       /\ (forall k, (S k < length curve)%nat ->
             nth k curve 0 <= nth (S k) curve 0)
       /\ nth (length curve - 1) curve 0 = py_sum q_daily.
Proof.
  apply (@visualize_Arps 10000 (7/10) (14/10) (1/10) 40);
    [unfold valid; lra | lia].
Defined.
